(** * School Network Monitor: dashboard client and monitoring core

    A shallow embedding of the Angular client of the school network
    monitor (notification service, HTTP error interceptor, push-channel
    client, pagination helpers, selection lists) together with a model of
    the monitoring core that the client talks to.

    TypeScript values of type [any] are embedded as [JsValue]; services
    that own mutable fields are embedded as records with explicit state
    passing; RxJS subjects are embedded as the ordered log of what they
    emitted. *)

From Stdlib Require Import String Ascii List ZArith QArith Qpower Bool Arith Lia.
From Stdlib Require Import Permutation DecimalString.
From Stdlib Require DecimalZ DecimalPos Finite.
From Stdlib Require Import Lqa.
Import ListNotations.

Set Warnings "-register-all".

Local Close Scope Q_scope.
Local Open Scope nat_scope.
Local Open Scope string_scope.
Local Open Scope list_scope.

(* ===================================================================== *)
(** ** JavaScript values                                                  *)
(* ===================================================================== *)

Module Js.

(** JSON-like run-time values plus [undefined].  Numbers are the
    integer-valued ones; objects are ordered field lists whose keys do
    not shadow the methods of [Object.prototype]. *)
Inductive JsValue : Type :=
| JUndefined
| JNull
| JBool (b : bool)
| JNum (n : Z)
| JStr (s : string)
| JArr (items : list JsValue)
| JObj (fields : list (string * JsValue)).

(** What a throwing operation raises. *)
Inductive JsError : Type :=
| TypeError (msg : string).

(** Completion of an expression that may throw. *)
Inductive Completion (A : Type) : Type :=
| Normal (a : A)
| Thrown (e : JsError).
Arguments Normal {A} a.
Arguments Thrown {A} e.

Definition cbind {A B} (c : Completion A) (k : A -> Completion B) : Completion B :=
  match c with
  | Normal a => k a
  | Thrown e => Thrown e
  end.

Notation "x <- c ;; k" := (cbind c (fun x => k))
  (at level 61, c at next level, right associativity).

(** [ToBoolean]. *)
Definition truthy (v : JsValue) : bool :=
  match v with
  | JUndefined | JNull => false
  | JBool b => b
  | JNum n => negb (n =? 0)%Z
  | JStr s => negb (s =? "")
  | JArr _ | JObj _ => true
  end.

(** [v === undefined || v === null]. *)
Definition nullish (v : JsValue) : bool :=
  match v with
  | JUndefined | JNull => true
  | _ => false
  end.

(** [a || b]. *)
Definition or_else (a b : JsValue) : JsValue := if truthy a then a else b.

Fixpoint lookup (k : string) (fields : list (string * JsValue)) : JsValue :=
  match fields with
  | [] => JUndefined
  | (k', v) :: rest => if k' =? k then v else lookup k rest
  end.

(** [v.k] for a [v] that is neither [null] nor [undefined]; [k] ranges
    over the data keys the client reads ([error], [detail], [message],
    [msg], [is_alive], ...), none of which a primitive or an array
    inherits from its prototype. *)
Definition field (v : JsValue) (k : string) : JsValue :=
  match v with
  | JObj fields => lookup k fields
  | _ => JUndefined
  end.

(** [v.k]: reading a property of [null] or [undefined] throws. *)
Definition get (v : JsValue) (k : string) : Completion JsValue :=
  if nullish v
  then Thrown (TypeError ("Cannot read properties of null or undefined (reading '" ++ k ++ "')"))
  else Normal (field v k).

(** [v?.k]. *)
Definition opt_get (v : JsValue) (k : string) : JsValue :=
  if nullish v then JUndefined else field v k.

(** [typeof v === 'string'] and [Array.isArray(v)]. *)
Definition is_string (v : JsValue) : bool :=
  match v with JStr _ => true | _ => false end.

Definition string_of_Z (n : Z) : string :=
  NilZero.string_of_int (Z.to_int n).

Definition string_of_nat (n : nat) : string := string_of_Z (Z.of_nat n).

(** [sep]-separated concatenation of already rendered items. *)
Fixpoint concat_with (sep : string) (parts : list string) : string :=
  match parts with
  | [] => ""
  | [p] => p
  | p :: rest => p ++ sep ++ concat_with sep rest
  end.

(** [ToString]; an array renders as its elements joined by a comma,
    where [null] and [undefined] elements render as the empty string. *)
Fixpoint to_string (v : JsValue) : string :=
  match v with
  | JUndefined => "undefined"
  | JNull => "null"
  | JBool true => "true"
  | JBool false => "false"
  | JNum n => string_of_Z n
  | JStr s => s
  | JArr items =>
      concat_with ","
        (map (fun i => if nullish i then "" else to_string i) items)
  | JObj _ => "[object Object]"
  end.

(** [items.join(sep)]. *)
Definition join (sep : string) (items : list JsValue) : string :=
  concat_with sep (map (fun i => if nullish i then "" else to_string i) items).

(** [items.map(f)] for a callback that may throw: the first exception
    aborts the traversal. *)
Fixpoint map_throwing (f : JsValue -> Completion JsValue) (items : list JsValue)
  : Completion (list JsValue) :=
  match items with
  | [] => Normal []
  | i :: rest =>
      y <- f i ;;
      ys <- map_throwing f rest ;;
      Normal (y :: ys)
  end.

(** [new Error(message)] as the caller sees it. *)
Definition new_Error (message : JsValue) : JsValue :=
  JObj [("message", JStr (to_string message))].

End Js.

(* ===================================================================== *)
(** ** JavaScript arrays of strings used as selection lists               *)
(* ===================================================================== *)

Module JsArray.

(** [arr.indexOf(x)]: index of the first element [=== x], or -1. *)
Fixpoint indexOf (x : string) (arr : list string) : Z :=
  match arr with
  | [] => (-1)%Z
  | y :: rest =>
      if y =? x then 0%Z
      else let i := indexOf x rest in
           if (i <? 0)%Z then (-1)%Z else (i + 1)%Z
  end.

Fixpoint remove_at (i : nat) (arr : list string) : list string :=
  match i, arr with
  | _, [] => []
  | O, _ :: rest => rest
  | S j, y :: rest => y :: remove_at j rest
  end.

(** [arr.splice(start, 1)]: a negative [start] counts from the end and
    is clamped at 0; a [start] past the end removes nothing. *)
Definition splice1 (start : Z) (arr : list string) : list string :=
  let len := Z.of_nat (length arr) in
  let from := if (start <? 0)%Z then Z.max (len + start) 0 else Z.min start len in
  remove_at (Z.to_nat from) arr.

(** [arr.push(x)]. *)
Definition push (x : string) (arr : list string) : list string := arr ++ [x].

(** [arr.slice(start, end)]: a negative bound counts from the end, both
    bounds are clamped to the array, and nothing is returned when the
    start is not before the end. *)
Definition slice {A} (start stop : Z) (arr : list A) : list A :=
  let len := Z.of_nat (length arr) in
  let from := if (start <? 0)%Z then Z.max (len + start) 0 else Z.min start len in
  let to := if (stop <? 0)%Z then Z.max (len + stop) 0 else Z.min stop len in
  firstn (Z.to_nat (to - from)) (skipn (Z.to_nat from) arr).

End JsArray.

(** The toggle that [EventsComponent.toggleEventSelection] and
    [DiscoveryComponent.toggleDeviceSelection] both spell out. *)
Module Selection.
Import JsArray.

Definition toggle (id : string) (selected : list string) : list string :=
  let index := indexOf id selected in
  if (index >? -1)%Z
  then splice1 index selected
  else push id selected.

(** A sequence of toggles, applied left to right. *)
Definition toggles (ids : list string) (selected : list string) : list string :=
  fold_left (fun sel id => toggle id sel) ids selected.

End Selection.

Module DiscoveryComponent.
Import JsArray.

Record State := {
  selectedDevices : list string
}.

Definition toggleDeviceSelection (ip : string) (c : State) : State :=
  let index := indexOf ip (selectedDevices c) in
  if (index >? -1)%Z
  then {| selectedDevices := splice1 index (selectedDevices c) |}
  else {| selectedDevices := push ip (selectedDevices c) |}.

End DiscoveryComponent.

(* ===================================================================== *)
(** ** Notification service                                               *)
(* ===================================================================== *)

Module NotificationService.
Import Js.

Inductive NotificationType := success_t | error_t | warning_t | info_t.

(** The [message] field is declared [string], but [showApiError] and the
    interceptor store whatever the payload held there. *)
Record Notification := {
  id : string;
  type : NotificationType;
  title : option string;
  message : JsValue;
  duration : option Z
}.

(** The service: its id counter and, in order, everything pushed on
    [notificationSubject]. *)
Record Notifier := {
  idCounter : nat;
  emitted : list Notification
}.

Definition fresh : Notifier := {| idCounter := 0; emitted := [] |}.

Definition show (ty : NotificationType) (msg : JsValue) (ttl : option string)
           (dur : option Z) (svc : Notifier) : Notifier :=
  let notification :=
    {| id := "notification-" ++ string_of_nat (idCounter svc);
       type := ty;
       title := ttl;
       message := msg;
       duration := dur |} in
  {| idCounter := S (idCounter svc);
     emitted := emitted svc ++ [notification] |}.

Definition default (d : Z) (given : option Z) : option Z :=
  match given with
  | Some v => Some v
  | None => Some d
  end.

Definition success (msg : JsValue) (ttl : option string) (dur : option Z) :=
  show success_t msg ttl (default 3000 dur).
Definition error (msg : JsValue) (ttl : option string) (dur : option Z) :=
  show error_t msg ttl (default 5000 dur).
Definition warning (msg : JsValue) (ttl : option string) (dur : option Z) :=
  show warning_t msg ttl (default 4000 dur).
Definition info (msg : JsValue) (ttl : option string) (dur : option Z) :=
  show info_t msg ttl (default 3000 dur).

(** [error?.error?.detail]. *)
Definition detail_of (err : JsValue) : JsValue :=
  opt_get (opt_get err "error") "detail".

(** The text [showApiError] settles on; the array branch throws when an
    element of [detail] is [null] or [undefined]. *)
Definition apiErrorMessage (err : JsValue) : Completion JsValue :=
  let message := JStr "An error occurred" in
  if truthy (detail_of err) then
    body <- get err "error" ;;
    detail <- get body "detail" ;;
    if is_string detail then Normal detail
    else
      match detail with
      | JArr items =>
          parts <- map_throwing
                     (fun d => m <- get d "msg" ;; Normal (or_else m d)) items ;;
          Normal (JStr (join ", " parts))
      | _ => Normal message
      end
  else if truthy (opt_get err "message") then get err "message"
  else if is_string err then Normal err
  else Normal message.

Definition showApiError (err : JsValue) (svc : Notifier) : Completion Notifier :=
  message <- apiErrorMessage err ;;
  Normal (error message (Some "Error") None svc).

(** The fallback text. *)
Definition default_message : JsValue := JStr "An error occurred".


(** One more notification of type ['error'], titled ['Error'], carrying
    [msg], has been pushed on the subject of [svc]. *)
Definition one_error_toast (msg : JsValue) (svc : Notifier) : Notifier :=
  {| idCounter := S (idCounter svc);
     emitted := emitted svc ++
       [{| id := "notification-" ++ string_of_nat (idCounter svc);
           type := error_t;
           title := Some "Error";
           message := msg;
           duration := Some 5000%Z |}] |}.

(** [Partial<Notification>] as [showCustom] reads it; a missing
    [message] is [undefined]. *)
Record CustomConfig := {
  cfg_type : option NotificationType;
  cfg_title : option string;
  cfg_message : JsValue;
  cfg_duration : option Z
}.

Definition showCustom (config : CustomConfig) (svc : Notifier) : Notifier :=
  let notification :=
    {| id := "notification-" ++ string_of_nat (idCounter svc);
       type := match cfg_type config with Some t => t | None => info_t end;
       title := cfg_title config;
       message := or_else (cfg_message config) (JStr "");
       duration := match cfg_duration config with
                   | Some d => if (d =? 0)%Z then Some 3000%Z else Some d
                   | None => Some 3000%Z
                   end |} in
  {| idCounter := S (idCounter svc);
     emitted := emitted svc ++ [notification] |}.

(** A call of one of the public methods of the service. *)
Inductive Call :=
| call_success (msg : JsValue) (ttl : option string) (dur : option Z)
| call_error (msg : JsValue) (ttl : option string) (dur : option Z)
| call_warning (msg : JsValue) (ttl : option string) (dur : option Z)
| call_info (msg : JsValue) (ttl : option string) (dur : option Z)
| call_showCustom (config : CustomConfig)
| call_showApiError (err : JsValue).

(** The service after a call; a call that throws leaves it as it was. *)
Definition perform (svc : Notifier) (c : Call) : Notifier :=
  match c with
  | call_success m t d => success m t d svc
  | call_error m t d => error m t d svc
  | call_warning m t d => warning m t d svc
  | call_info m t d => info m t d svc
  | call_showCustom config => showCustom config svc
  | call_showApiError err =>
      match showApiError err svc with
      | Normal svc' => svc'
      | Thrown _ => svc
      end
  end.

(** The id the service gives to its [n]-th notification. *)
Definition nth_id (n : nat) : string := "notification-" ++ string_of_nat n.

(** The ids handed out so far are the first [idCounter] ids. *)
Definition ids_in_step (svc : Notifier) : Prop :=
  map id (emitted svc) = map nth_id (seq 0 (idCounter svc)).

End NotificationService.

(* ===================================================================== *)
(** ** HTTP interceptors                                                  *)
(* ===================================================================== *)

Module Http.
Import Js.

(** [HttpErrorResponse.error]: an [ErrorEvent] raised in the browser, or
    the body the server sent. *)
Inductive ErrorBody :=
| ClientErrorEvent (ev_message : string)
| ServerBody (body : JsValue).

Record HttpErrorResponse := {
  status : Z;
  statusText : string;
  message : string;
  error : ErrorBody
}.

(** The response as a component's error handler reads it. *)
Definition to_js (r : HttpErrorResponse) : JsValue :=
  JObj [("status", JNum (status r));
        ("statusText", JStr (statusText r));
        ("message", JStr (message r));
        ("error", match error r with
                  | ClientErrorEvent m => JObj [("message", JStr m)]
                  | ServerBody b => b
                  end)].

(** An exception as the subscriber's error handler reads it. *)
Definition thrown_value (e : JsError) : JsValue :=
  match e with
  | TypeError m => JObj [("message", JStr m)]
  end.

End Http.

Module ErrorInterceptor.
Import Js Http.

Section Intercept.

(** [JSON.stringify] of the JavaScript runtime. *)
Variable JSON_stringify : JsValue -> string.

Definition errorMessage (r : HttpErrorResponse) : Completion JsValue :=
  let errorMessage := JStr "An unknown error occurred" in
  match error r with
  | ClientErrorEvent m => Normal (JStr ("Error: " ++ m))
  | ServerBody body =>
      let detail := opt_get body "detail" in
      if truthy detail then
        if is_string detail then Normal detail
        else
          match detail with
          | JArr items =>
              parts <- map_throwing
                         (fun d =>
                            m <- get d "msg" ;;
                            m' <- get d "message" ;;
                            Normal (or_else (or_else m m') d)) items ;;
              Normal (JStr (join ", " parts))
          | JObj _ => Normal (JStr (JSON_stringify detail))
          | _ => Normal errorMessage
          end
      else if truthy (opt_get body "message") then Normal (opt_get body "message")
      else if truthy (JStr (message r)) then Normal (JStr (message r))
      else Normal (JStr ("Server Error: " ++ string_of_Z (status r)
                           ++ " - " ++ statusText r))
  end.

(** The toast the interceptor itself raises, by status code. *)
Definition notify (r : HttpErrorResponse) (msg : JsValue)
           (svc : NotificationService.Notifier) : NotificationService.Notifier :=
  if (status r >=? 500)%Z then
    NotificationService.error msg (Some "Server Error") None svc
  else if (status r =? 404)%Z then
    NotificationService.warning (JStr "Resource not found") (Some "Not Found") None svc
  else if (status r =? 403)%Z then
    NotificationService.warning
      (JStr "You don't have permission to perform this action") (Some "Forbidden") None svc
  else if (status r =? 409)%Z then
    NotificationService.warning msg (Some "Conflict") None svc
  else if (status r =? 400)%Z then
    NotificationService.warning msg (Some "Invalid Request") None svc
  else svc.

(** The [catchError] handler of [intercept]: the notifier afterwards and
    the error that reaches the subscriber. *)
Definition intercept (r : HttpErrorResponse) (svc : NotificationService.Notifier)
  : NotificationService.Notifier * JsValue :=
  match errorMessage r with
  | Normal msg => (notify r msg svc, new_Error msg)
  | Thrown e => (svc, thrown_value e)
  end.

End Intercept.

(** The status codes for which the interceptor raises a toast of its
    own, and those for which that toast carries the error text. *)
Definition shows_toast (status : Z) : bool :=
  (status >=? 500)%Z || (status =? 404)%Z || (status =? 403)%Z
  || (status =? 409)%Z || (status =? 400)%Z.

Definition toast_with_text (status : Z) : bool :=
  (status >=? 500)%Z || (status =? 409)%Z || (status =? 400)%Z.

(** A component's [error] handler behind the interceptor: the
    interceptor runs, then [showApiError] gets what it rethrew. *)
Definition handled_by_component (JSON_stringify : JsValue -> string)
           (r : HttpErrorResponse) (svc : NotificationService.Notifier)
  : Completion NotificationService.Notifier :=
  let '(svc', thrown) := intercept JSON_stringify r svc in
  NotificationService.showApiError thrown svc'.

End ErrorInterceptor.

Module AuthInterceptor.
Import Http.

(** The [catchError] handler: on 401 the stored token is dropped and the
    router is sent to the login page; the error is rethrown as it came. *)
Definition intercept (r : HttpErrorResponse) (token : option string)
  : option string * bool * HttpErrorResponse :=
  if (status r =? 401)%Z then (None, true, r) else (token, false, r).

End AuthInterceptor.

(* ===================================================================== *)
(** ** The probe and the ping-one action                                  *)
(* ===================================================================== *)

Module Probe.
Import Js.

Inductive Protocol := ICMP | SNMP.

Inductive ErrorClass := timeout | unreachable | protocol_error.

(** What the network did with one request. *)
Inductive NetworkReply :=
| Replied (latency_ms : Z)
| NoReply
| HostUnreachable
| Malformed.

Record ProbeResult := {
  reachable : bool;
  latency : option Z;
  error_class : option ErrorClass
}.

(** Modelled from the spec: the Probe of section 4.1, whose backend code
    is not part of the sources.  Input: protocol and timeout (the target
    address selects the [NetworkReply]); output: reachable flag, latency
    when reachable, error classification otherwise.  A reply later than
    the timeout is a timeout; no outcome raises. *)
Definition probe (p : Protocol) (timeout_ms : Z) (net : NetworkReply) : ProbeResult :=
  match net with
  | Replied l =>
      if (l <=? timeout_ms)%Z
      then {| reachable := true; latency := Some l; error_class := None |}
      else {| reachable := false; latency := None; error_class := Some timeout |}
  | NoReply =>
      {| reachable := false; latency := None; error_class := Some timeout |}
  | HostUnreachable =>
      {| reachable := false; latency := None; error_class := Some unreachable |}
  | Malformed =>
      {| reachable := false; latency := None; error_class := Some protocol_error |}
  end.

(** A network failure that is part of normal operation: no reply within
    the timeout, or an unreachable host. *)
Definition ordinary_failure (timeout_ms : Z) (net : NetworkReply) : bool :=
  match net with
  | Replied l => negb (l <=? timeout_ms)%Z
  | NoReply | HostUnreachable => true
  | Malformed => false
  end.

Definition class_name (c : ErrorClass) : string :=
  match c with
  | timeout => "timeout"
  | unreachable => "unreachable"
  | protocol_error => "protocol-error"
  end.

(** What an HTTP call hands to [subscribe]: a value for the [next]
    handler or an error for the [error] handler. *)
Inductive Outcome :=
| Next (result : JsValue)
| Error (err : JsValue).

(** Modelled from the spec: the body of the ping-one action (sections 6
    and 7), with the field names the client reads. *)
Definition ping_response (r : ProbeResult) : JsValue :=
  JObj [("is_alive", JBool (reachable r));
        ("response_time_ms", match latency r with Some l => JNum l | None => JNull end);
        ("error", match error_class r with
                  | Some c => JStr (class_name c)
                  | None => JNull
                  end)].

(** Modelled from the spec: the ping-one action answers with the probe
    result as data, whatever the probe found. *)
Definition ping_one (timeout_ms : Z) (net : NetworkReply) : Outcome :=
  Next (ping_response (probe ICMP timeout_ms net)).

End Probe.

Module DeviceDetailComponent.
Import Js Probe.

Record State := {
  deviceId : string;
  isPinging : bool;
  pingResult : JsValue
}.

Definition pingDevice (outcome : Outcome) (c : State)
           (svc : NotificationService.Notifier)
  : Completion (State * NotificationService.Notifier) :=
  let c := {| deviceId := deviceId c; isPinging := true; pingResult := JNull |} in
  match outcome with
  | Next result =>
      let c := {| deviceId := deviceId c; isPinging := false; pingResult := result |} in
      isAlive <- get result "is_alive" ;;
      rt <- get result "response_time_ms" ;;
      let message :=
        if truthy isAlive
        then JStr ("Device is UP (" ++ to_string rt ++ "ms)")
        else JStr "Device is DOWN" in
      if truthy isAlive
      then Normal (c, NotificationService.success message None None svc)
      else Normal (c, NotificationService.error message None None svc)
  | Error err =>
      let c := {| deviceId := deviceId c; isPinging := false; pingResult := pingResult c |} in
      svc' <- NotificationService.showApiError err svc ;;
      Normal (c, svc')
  end.

(** The fields of a port that the detail page reads. *)
Record Port := {
  port_id : string;
  port_status : string
}.

Definition activePorts (ports : list Port) : list Port :=
  filter (fun p => port_status p =? "UP") ports.

Definition inactivePorts (ports : list Port) : list Port :=
  filter (fun p => negb (port_status p =? "UP")) ports.

End DeviceDetailComponent.

Module DashboardComponent.
Import Js Probe.



(** [runMonitoringCycle], response side. *)
Definition runMonitoringCycle_response (outcome : Outcome)
           (svc : NotificationService.Notifier)
  : Completion NotificationService.Notifier :=
  match outcome with
  | Next _ =>
      Normal (NotificationService.info (JStr "Monitoring cycle started") None None svc)
  | Error err => NotificationService.showApiError err svc
  end.

(** [healthStatusClass], on the overall score of the health report when
    there is one. *)
Definition healthStatusClass (healthScore : option Q) : string :=
  match healthScore with
  | None => "unknown"
  | Some score =>
      if Qle_bool 90 score then "excellent"
      else if Qle_bool 75 score then "good"
      else if Qle_bool 60 score then "fair"
      else if Qle_bool 40 score then "poor"
      else "critical"
  end.

(** The classes from worst to best. *)
Definition health_rank (class : string) : nat :=
  if class =? "excellent" then 4
  else if class =? "good" then 3
  else if class =? "fair" then 2
  else if class =? "poor" then 1
  else 0.

End DashboardComponent.

(* ===================================================================== *)
(** ** Pagination                                                         *)
(* ===================================================================== *)

Module Paging.

(** [Math.ceil(a / b)] for integers [a >= 0] and [b > 0]. *)
Definition ceil_div (a b : Z) : Z := (- ((- a) / b))%Z.

(** [Array.from({ length: n }, (_, i) => i + 1)]. *)
Definition one_to (n : Z) : list Z :=
  map (fun i => (Z.of_nat i + 1)%Z) (seq 0 (Z.to_nat n)).

(** Modelled from the spec: the paginated list operation of section 6,
    whose backend code is not part of the sources.  Pages are numbered
    from 1; page [p] of size [n] skips the first [(p - 1) * n] items and
    returns at most the next [n]. *)
Definition list_page {A} (page : positive) (page_size : nat) (items : list A) : list A :=
  firstn page_size (skipn ((Pos.to_nat page - 1) * page_size) items).

End Paging.

Module EventsComponent.
Import JsArray Paging.

Record State := {
  selectedEvents : list string;
  currentPage : Z;
  pageSize : Z;
  totalEvents : Z
}.

Definition initial : State :=
  {| selectedEvents := []; currentPage := 1; pageSize := 20; totalEvents := 0 |}.

Definition totalPages (c : State) : Z :=
  if (totalEvents c =? 0)%Z then 1%Z
  else Z.max 1 (ceil_div (totalEvents c) (pageSize c)).

Definition toggleEventSelection (eventId : string) (c : State) : State :=
  let index := indexOf eventId (selectedEvents c) in
  let selected :=
    if (index >? -1)%Z
    then splice1 index (selectedEvents c)
    else push eventId (selectedEvents c) in
  {| selectedEvents := selected;
     currentPage := currentPage c;
     pageSize := pageSize c;
     totalEvents := totalEvents c |}.

(** *** Moving between pages *)

Definition with_page (p : Z) (c : State) : State :=
  {| selectedEvents := selectedEvents c;
     currentPage := p;
     pageSize := pageSize c;
     totalEvents := totalEvents c |}.

Definition previousPage (c : State) : State :=
  if (currentPage c >? 1)%Z then with_page (currentPage c - 1) c else c.

Definition nextPage (c : State) : State :=
  if (currentPage c <? totalPages c)%Z then with_page (currentPage c + 1) c else c.

Definition onFilterChange (c : State) : State := with_page 1 c.

(** The [next] handler of [loadEvents], on the paging fields: the total
    is raised to the number of events that came back. *)
Definition onEventsLoaded (events_length : nat) (c : State) : State :=
  {| selectedEvents := selectedEvents c;
     currentPage := currentPage c;
     pageSize := pageSize c;
     totalEvents := Z.max (totalEvents c) (Z.of_nat events_length) |}.

(** The [next] handler of [bulkAcknowledge]. *)
Definition onBulkAcknowledged (c : State) : State :=
  {| selectedEvents := [];
     currentPage := currentPage c;
     pageSize := pageSize c;
     totalEvents := totalEvents c |}.

Inductive Action :=
| PreviousPage
| NextPage
| FilterChange
| EventsLoaded (events_length : nat)
| ToggleSelection (eventId : string)
| BulkAcknowledged.

Definition act (c : State) (a : Action) : State :=
  match a with
  | PreviousPage => previousPage c
  | NextPage => nextPage c
  | FilterChange => onFilterChange c
  | EventsLoaded n => onEventsLoaded n c
  | ToggleSelection e => toggleEventSelection e c
  | BulkAcknowledged => onBulkAcknowledged c
  end.

(** A page of answers of which none is longer than the page size. *)
Definition within_page_size (page_size : Z) (a : Action) : bool :=
  match a with
  | EventsLoaded n => (Z.of_nat n <=? page_size)%Z
  | _ => true
  end.

(** The page shown is one of the pages the component counts. *)
Definition page_in_range (c : State) : Prop :=
  (0 < pageSize c)%Z /\ (0 <= totalEvents c)%Z
  /\ (1 <= currentPage c <= totalPages c)%Z.

End EventsComponent.

Module DevicesComponent.
Import Js Probe Paging.

Record Device := {
  id : string;
  name : string
}.

Record State := {
  currentPage : Z;
  pageSize : Z;
  totalDevices : Z;
  totalPages : Z;
  pages : list Z
}.

Definition calculatePagination (c : State) : State :=
  let totalPages := ceil_div (totalDevices c) (pageSize c) in
  {| currentPage := currentPage c;
     pageSize := pageSize c;
     totalDevices := totalDevices c;
     totalPages := totalPages;
     pages := one_to totalPages |}.

Definition pingDevice (device : Device) (outcome : Outcome)
           (svc : NotificationService.Notifier)
  : Completion NotificationService.Notifier :=
  let svc :=
    NotificationService.info (JStr ("Pinging " ++ name device ++ "...")) None None svc in
  match outcome with
  | Next result =>
      isAlive <- get result "is_alive" ;;
      if truthy isAlive then
        rt <- get result "response_time_ms" ;;
        Normal (NotificationService.success
                  (JStr (name device ++ " is UP (" ++ to_string rt ++ "ms)"))
                  None None svc)
      else
        Normal (NotificationService.error
                  (JStr (name device ++ " is DOWN")) None None svc)
  | Error err => NotificationService.showApiError err svc
  end.

(** *** The page window *)

Definition visiblePages (c : State) : list Z :=
  let start := Z.max 0 (currentPage c - 3) in
  let stop := Z.min (totalPages c) (currentPage c + 2) in
  JsArray.slice start stop (pages c).

Definition with_page (p : Z) (c : State) : State :=
  {| currentPage := p;
     pageSize := pageSize c;
     totalDevices := totalDevices c;
     totalPages := totalPages c;
     pages := pages c |}.


Definition nextPage (c : State) : State :=
  if (currentPage c <? totalPages c)%Z then with_page (currentPage c + 1) c else c.

(** The pages from [lo] to [hi], both included. *)
Definition page_range (lo hi : Z) : list Z :=
  map (fun i => (lo + Z.of_nat i)%Z) (seq 0 (Z.to_nat (hi - lo + 1))).

(** *** The client-side filter *)

(** The fields of a device that the list page reads. *)
Record Row := {
  row_id : string;
  row_name : string;
  row_ip : option string;
  row_mac : option string;
  row_hostname : option string;
  row_status : string
}.

Record View := {
  devices : list Row;
  filteredDevices : list Row;
  searchTerm : string;
  paging : State
}.

(** [s.includes(term)]. *)
Fixpoint includes (s term : string) : bool :=
  if String.prefix term s then true
  else match s with
       | EmptyString => false
       | String _ rest => includes rest term
       end.

Section Filter.

(** [String.prototype.toLowerCase] of the JavaScript runtime. *)
Variable toLowerCase : string -> string.

(** [field && field.toLowerCase().includes(term)]. *)
Definition field_matches (term : string) (f : option string) : bool :=
  match f with
  | Some v => if v =? "" then false else includes (toLowerCase v) term
  | None => false
  end.

Definition row_matches (term : string) (d : Row) : bool :=
  includes (toLowerCase (row_name d)) term
  || field_matches term (row_ip d)
  || field_matches term (row_mac d)
  || field_matches term (row_hostname d).

Definition applyClientSideFilter (v : View) : View :=
  let filtered := devices v in
  let filtered :=
    if negb (searchTerm v =? "")
    then let term := toLowerCase (searchTerm v) in
         filter (row_matches term) filtered
    else filtered in
  {| devices := devices v;
     filteredDevices := filtered;
     searchTerm := searchTerm v;
     paging :=
       calculatePagination
         {| currentPage := currentPage (paging v);
            pageSize := pageSize (paging v);
            totalDevices := Z.of_nat (length filtered);
            totalPages := totalPages (paging v);
            pages := pages (paging v) |} |}.

(** The [next] handler of [loadDevices]. *)
Definition onDevicesLoaded (loaded : list Row) (v : View) : View :=
  applyClientSideFilter
    {| devices := loaded;
       filteredDevices := filteredDevices v;
       searchTerm := searchTerm v;
       paging := paging v |}.

(** [device.status = status] on the first device with the given id. *)
Fixpoint set_status (device_id status : string) (rows : list Row) : option (list Row) :=
  match rows with
  | [] => None
  | d :: rest =>
      if row_id d =? device_id
      then Some ({| row_id := row_id d; row_name := row_name d; row_ip := row_ip d;
                    row_mac := row_mac d; row_hostname := row_hostname d;
                    row_status := status |} :: rest)
      else option_map (cons d) (set_status device_id status rest)
  end.

(** The subscriber of [getDeviceStatusUpdates]. *)
Definition onStatusUpdate (device_id status : string) (v : View) : View :=
  match set_status device_id status (devices v) with
  | Some rows =>
      applyClientSideFilter
        {| devices := rows;
           filteredDevices := filteredDevices v;
           searchTerm := searchTerm v;
           paging := paging v |}
  | None => v
  end.

End Filter.

End DevicesComponent.

(* ===================================================================== *)
(** ** Push-channel client                                                *)
(* ===================================================================== *)

Module WebsocketService.
Import Js.

Inductive ConnectionStatus :=
| CONNECTED | DISCONNECTED | CONNECTING | RECONNECTING | ERROR.

(** The message envelope, in either direction. *)
Record WebSocketMessage := {
  type : string;
  data : JsValue;
  timestamp : option string
}.

(** [environment.websocket]. *)
Record Environment := {
  reconnectInterval : Q;
  maxReconnectAttempts : nat;
  heartbeatInterval : Q
}.

Definition environment_prod : Environment :=
  {| reconnectInterval := 5000; maxReconnectAttempts := 10; heartbeatInterval := 30000 |}.

(** The two callbacks the service hands to [setTimeout]. *)
Inductive TimerTask :=
| ReconnectTask          (* if (!isManualDisconnect) connect() *)
| ManualReconnectTask.   (* connect() *)

Record Socket := {
  closed : bool
}.

Record Service := {
  socket : option Socket;
  reconnectAttempts : nat;
  isManualDisconnect : bool;
  heartbeatTimer : bool;
  statusLog : list ConnectionStatus;      (* connectionStatusSubject$ *)
  timers : list (Q * TimerTask);          (* pending setTimeout calls *)
  opened : nat;                           (* sockets created so far *)
  sent : list WebSocketMessage            (* socket$.next calls *)
}.

Definition with_status (st : ConnectionStatus) (s : Service) : Service :=
  {| socket := socket s; reconnectAttempts := reconnectAttempts s;
     isManualDisconnect := isManualDisconnect s; heartbeatTimer := heartbeatTimer s;
     statusLog := statusLog s ++ [st]; timers := timers s;
     opened := opened s; sent := sent s |}.

Definition with_socket (k : option Socket) (s : Service) : Service :=
  {| socket := k; reconnectAttempts := reconnectAttempts s;
     isManualDisconnect := isManualDisconnect s; heartbeatTimer := heartbeatTimer s;
     statusLog := statusLog s; timers := timers s;
     opened := opened s; sent := sent s |}.

Definition with_attempts (n : nat) (s : Service) : Service :=
  {| socket := socket s; reconnectAttempts := n;
     isManualDisconnect := isManualDisconnect s; heartbeatTimer := heartbeatTimer s;
     statusLog := statusLog s; timers := timers s;
     opened := opened s; sent := sent s |}.

Definition with_manual (b : bool) (s : Service) : Service :=
  {| socket := socket s; reconnectAttempts := reconnectAttempts s;
     isManualDisconnect := b; heartbeatTimer := heartbeatTimer s;
     statusLog := statusLog s; timers := timers s;
     opened := opened s; sent := sent s |}.

Definition with_timers (t : list (Q * TimerTask)) (s : Service) : Service :=
  {| socket := socket s; reconnectAttempts := reconnectAttempts s;
     isManualDisconnect := isManualDisconnect s; heartbeatTimer := heartbeatTimer s;
     statusLog := statusLog s; timers := t;
     opened := opened s; sent := sent s |}.

Definition isConnected (s : Service) : bool :=
  match socket s with
  | Some k => negb (closed k)
  | None => false
  end.

Definition connect (s : Service) : Service :=
  if isConnected s then s
  else
    let s := with_status CONNECTING s in
    {| socket := Some {| closed := false |};
       reconnectAttempts := reconnectAttempts s;
       isManualDisconnect := isManualDisconnect s; heartbeatTimer := heartbeatTimer s;
       statusLog := statusLog s; timers := timers s;
       opened := S (opened s); sent := sent s |}.

(** [reconnectInterval * Math.pow(1.5, attempt - 1)]. *)
Definition backoff (env : Environment) (attempt : nat) : Q :=
  (reconnectInterval env * (3 # 2) ^ (Z.of_nat attempt - 1))%Q.

Definition reconnect (env : Environment) (s : Service) : Service :=
  if (maxReconnectAttempts env <=? reconnectAttempts s)%nat then
    with_status ERROR s
  else
    let s := with_attempts (S (reconnectAttempts s)) s in
    let delay := backoff env (reconnectAttempts s) in
    let s := with_status RECONNECTING s in
    with_timers (timers s ++ [(delay, ReconnectTask)]) s.

Definition stopHeartbeat (s : Service) : Service :=
  {| socket := socket s; reconnectAttempts := reconnectAttempts s;
     isManualDisconnect := isManualDisconnect s; heartbeatTimer := false;
     statusLog := statusLog s; timers := timers s;
     opened := opened s; sent := sent s |}.

Definition disconnect (s : Service) : Service :=
  let s := with_manual true s in
  let s := stopHeartbeat s in
  let s := match socket s with
           | Some _ => with_socket None s
           | None => s
           end in
  with_status DISCONNECTED s.

Definition reconnectManually (s : Service) : Service :=
  let s := disconnect s in
  let s := with_manual false s in
  let s := with_attempts 0 s in
  with_timers (timers s ++ [(1000%Q, ManualReconnectTask)]) s.

(** [openObserver.next]. *)
Definition onOpen (s : Service) : Service :=
  let s := with_status CONNECTED s in
  let s := with_attempts 0 s in
  with_manual false s.

(** [closeObserver.next]. *)
Definition onClose (env : Environment) (s : Service) : Service :=
  let s := with_status DISCONNECTED s in
  let s := with_socket None s in
  if negb (isManualDisconnect s) then reconnect env s else s.

(** The [catchError] of the socket subscription; it completes the
    stream, so the [error] handler of [subscribe] never runs. *)
Definition onError (s : Service) : Service :=
  with_status ERROR s.

Definition run_task (t : TimerTask) (s : Service) : Service :=
  match t with
  | ReconnectTask => if negb (isManualDisconnect s) then connect s else s
  | ManualReconnectTask => connect s
  end.

Fixpoint drop_nth {A} (i : nat) (l : list A) : list A :=
  match i, l with
  | _, [] => []
  | O, _ :: rest => rest
  | S j, x :: rest => x :: drop_nth j rest
  end.

(** What can happen to the service between two calls of its API. *)
Inductive Event :=
| SocketOpened
| SocketClosed
| SocketFailed
| TimerFired (i : nat).

Definition step (env : Environment) (s : Service) (ev : Event) : Service :=
  match ev with
  | SocketOpened => onOpen s
  | SocketClosed => onClose env s
  | SocketFailed => onError s
  | TimerFired i =>
      match nth_error (timers s) i with
      | Some (_, task) => run_task task (with_timers (drop_nth i (timers s)) s)
      | None => s
      end
  end.

Definition run (env : Environment) (evs : list Event) (s : Service) : Service :=
  fold_left (step env) evs s.

(** The service right after the connection was established. *)
Definition connected : Service :=
  {| socket := Some {| closed := false |}; reconnectAttempts := 0;
     isManualDisconnect := false; heartbeatTimer := true;
     statusLog := [CONNECTING; CONNECTED]; timers := [];
     opened := 1; sent := [] |}.

(** An event that is neither a successful open nor a call of the API. *)
Definition failure_event (ev : Event) : bool :=
  match ev with
  | SocketOpened => false
  | _ => true
  end.


(** *** Sending *)

Definition send (m : WebSocketMessage) (s : Service) : Service :=
  if isConnected s then
    {| socket := socket s; reconnectAttempts := reconnectAttempts s;
       isManualDisconnect := isManualDisconnect s; heartbeatTimer := heartbeatTimer s;
       statusLog := statusLog s; timers := timers s;
       opened := opened s; sent := sent s ++ [m] |}
  else s.

(** [now] is [new Date().toISOString()]. *)
Definition sendPing (now : string) (s : Service) : Service :=
  send {| type := "PING"; data := JObj [("timestamp", JStr now)]; timestamp := None |} s.

(** *** Filtering *)

(** What an observable hands to an observer. *)
Inductive Signal (A : Type) :=
| next (a : A)
| error (e : JsValue)
| complete.
Arguments next {A} a.
Arguments error {A} e.
Arguments complete {A}.

Definition terminal {A} (sg : Signal A) : bool :=
  match sg with
  | next _ => false
  | _ => true
  end.

(** An observer is the log of the signals it accepted; once it has
    accepted [error] or [complete] it accepts nothing more. *)
Definition accept {A} (log : list (Signal A)) (sg : Signal A) : list (Signal A) :=
  if existsb terminal log then log else log ++ [sg].

(** The observer [getMessagesByType] subscribes to [messages$]. *)
Definition forward (ty : string) (observer : list (Signal JsValue))
           (sg : Signal WebSocketMessage) : list (Signal JsValue) :=
  match sg with
  | next message =>
      if type message =? ty then accept observer (next (data message)) else observer
  | error err => accept observer (error err)
  | complete => accept observer complete
  end.

(** [getMessagesByType(ty)] subscribed while [messages$] delivers
    [source]: what the subscriber observes. *)
Definition getMessagesByType (ty : string) (source : list (Signal WebSocketMessage))
  : list (Signal JsValue) :=
  fold_left (forward ty) source [].

(** *** The rest of the API *)

Definition startHeartbeat (s : Service) : Service :=
  let s := stopHeartbeat s in
  {| socket := socket s; reconnectAttempts := reconnectAttempts s;
     isManualDisconnect := isManualDisconnect s; heartbeatTimer := true;
     statusLog := statusLog s; timers := timers s;
     opened := opened s; sent := sent s |}.

(** The callback of the heartbeat interval, which runs only while the
    interval is set. *)
Definition heartbeatTick (now : string) (s : Service) : Service :=
  if heartbeatTimer s
  then (if isConnected s then sendPing now s else s)
  else s.

Definition resetReconnectAttempts (s : Service) : Service := with_attempts 0 s.

(** The fields of a service that has not run its constructor yet. *)
Definition blank : Service :=
  {| socket := None; reconnectAttempts := 0; isManualDisconnect := false;
     heartbeatTimer := false; statusLog := []; timers := [];
     opened := 0; sent := [] |}.

(** The constructor: [connect()] and then [startHeartbeat()]. *)
Definition create : Service := startHeartbeat (connect blank).

(** Everything that can happen to a service: an event from its socket
    or its timers, a tick of the heartbeat, or a call of its API. *)
Inductive Action :=
| Happens (ev : Event)
| Tick (now : string)
| CallConnect
| CallDisconnect
| CallReconnectManually
| CallSend (m : WebSocketMessage)
| CallSendPing (now : string)
| CallResetReconnectAttempts.

Definition act (env : Environment) (s : Service) (a : Action) : Service :=
  match a with
  | Happens ev => step env s ev
  | Tick now => heartbeatTick now s
  | CallConnect => connect s
  | CallDisconnect => disconnect s
  | CallReconnectManually => reconnectManually s
  | CallSend m => send m s
  | CallSendPing now => sendPing now s
  | CallResetReconnectAttempts => resetReconnectAttempts s
  end.

Definition acts (env : Environment) (l : list Action) (s : Service) : Service :=
  fold_left (act env) l s.

(** An action through which the application itself puts a message on
    the socket. *)
Definition explicit_send (a : Action) : bool :=
  match a with
  | CallSend _ | CallSendPing _ => true
  | _ => false
  end.

Definition manual_task (t : Q * TimerTask) : bool :=
  match snd t with
  | ManualReconnectTask => true
  | ReconnectTask => false
  end.

(** The messages a source delivers before its first terminal signal. *)
Fixpoint messages_before (source : list (Signal WebSocketMessage))
  : list WebSocketMessage :=
  match source with
  | next m :: rest => m :: messages_before rest
  | _ => []
  end.

(** The first terminal signal of a source, if it has one, as the derived
    stream passes it on. *)
Fixpoint first_terminal (source : list (Signal WebSocketMessage))
  : list (Signal JsValue) :=
  match source with
  | [] => []
  | next _ :: rest => first_terminal rest
  | error e :: _ => [error e]
  | complete :: _ => [complete]
  end.

(** The service is manually disconnected and holds no socket and no
    timer of a manual reconnect. *)
Definition parked (s : Service) : Prop :=
  isManualDisconnect s = true
  /\ socket s = None
  /\ forallb (fun t => negb (manual_task t)) (timers s) = true.

End WebsocketService.

(* ===================================================================== *)
(** ** Monitoring core                                                    *)
(* ===================================================================== *)

Module MonitorCycle.
Import Js.

Inductive Status := UP | DOWN | UNKNOWN.

Inductive TargetKind := Device | Link.

(** The event types of [EventsComponent.eventTypes] that a status
    transition can produce. *)
Inductive EventType := DEVICE_UP | DEVICE_DOWN | LINK_UP | LINK_DOWN | OTHER.

(** Modelled from the spec: a monitored Device or Link of section 3 with
    its last-known status, the consecutive-failure threshold configured
    for it (section 8 gives it per device) and the number of failed probes
    in a row so far. *)
Record Target := {
  ip : string;
  kind : TargetKind;
  threshold : nat;
  status : Status;
  failures : nat
}.

(** Modelled from the spec: the Event record of section 3, reduced to
    its type and the target it is about. *)
Record Event := {
  event_type : EventType;
  subject : string
}.

(** Modelled from the spec: the relational store (registry and events)
    and the fan-out channel of section 2. *)
Record Store := {
  registry : list Target;
  events : list Event;
  channel : list WebsocketService.WebSocketMessage
}.

Definition status_eqb (a b : Status) : bool :=
  match a, b with
  | UP, UP | DOWN, DOWN | UNKNOWN, UNKNOWN => true
  | _, _ => false
  end.

Definition status_name (s : Status) : string :=
  match s with
  | UP => "UP"
  | DOWN => "DOWN"
  | UNKNOWN => "UNKNOWN"
  end.

Definition transition_type (k : TargetKind) (s : Status) : EventType :=
  match k, s with
  | Device, UP => DEVICE_UP
  | Device, DOWN => DEVICE_DOWN
  | Link, UP => LINK_UP
  | Link, DOWN => LINK_DOWN
  | _, UNKNOWN => OTHER
  end.

(** Modelled from the spec: how the source decides the status of a
    target, as section 9 reports it (the backend code is not part of the
    sources, and neither the API guide nor the client knows a
    threshold): the status follows the latest probe, so a single failed
    probe, a timeout included, takes the target DOWN at once and a
    successful probe makes it UP; the configured threshold is not
    consulted. *)
Definition observe (ok : bool) (t : Target) : Target :=
  {| ip := ip t; kind := kind t; threshold := threshold t;
     status := if ok then UP else DOWN;
     failures := if ok then 0 else S (failures t) |}.

(** Modelled from the spec: the edge policy that section 4.2 asks for,
    kept for comparison.  A successful probe makes the target UP and
    clears the count of failures; a failed probe adds one to the count,
    and the target goes DOWN once the count reaches the configured
    threshold, keeping its status until then. *)
Definition observe_debounced (ok : bool) (t : Target) : Target :=
  if ok then
    {| ip := ip t; kind := kind t; threshold := threshold t;
       status := UP; failures := 0 |}
  else
    let n := S (failures t) in
    {| ip := ip t; kind := kind t; threshold := threshold t;
       status := if (threshold t <=? n)%nat then DOWN else status t;
       failures := n |}.

(** Modelled from the spec: the message published for a status change,
    in the envelope of section 6. *)
Definition status_message (t : Target) : WebsocketService.WebSocketMessage :=
  {| WebsocketService.type :=
       match kind t with Device => "DEVICE_STATUS" | Link => "LINK_STATUS" end;
     WebsocketService.data :=
       JObj [("ip", JStr (ip t)); ("status", JStr (status_name (status t)))];
     WebsocketService.timestamp := None |}.

(** Modelled from the spec: diffing and persisting one target (sections
    4.2 and 4.3): the new status is compared with the stored one and, on
    a change, one Event is appended and one message is published. *)
Definition monitor_target (ok : bool) (t : Target)
  : Target * list Event * list WebsocketService.WebSocketMessage :=
  let t' := observe ok t in
  if status_eqb (status t) (status t') then (t', [], [])
  else (t',
        [{| event_type := transition_type (kind t') (status t'); subject := ip t' |}],
        [status_message t']).

(** Modelled from the spec: one run of the Monitor Cycle (section 4.2):
    every target of the registry is probed with the same timeout, a
    failing probe being an ordinary result, and then diffed and
    persisted in registry order. *)
Fixpoint sweep (timeout_ms : Z) (net : string -> Probe.NetworkReply)
         (targets : list Target)
  : list Target * list Event * list WebsocketService.WebSocketMessage :=
  match targets with
  | [] => ([], [], [])
  | t :: rest =>
      let r := Probe.probe Probe.ICMP timeout_ms (net (ip t)) in
      let '(t', evs, msgs) := monitor_target (Probe.reachable r) t in
      let '(rest', evs', msgs') := sweep timeout_ms net rest in
      (t' :: rest', evs ++ evs', msgs ++ msgs')
  end.

(** Modelled from the spec: the Persisting phase of a run; the events
    and the messages of the sweep are appended to the store and to the
    channel. *)
Definition run_cycle (timeout_ms : Z) (net : string -> Probe.NetworkReply)
           (st : Store) : Store :=
  let '(targets, evs, msgs) := sweep timeout_ms net (registry st) in
  {| registry := targets;
     events := events st ++ evs;
     channel := channel st ++ msgs |}.

(** Modelled from the spec: one target followed over consecutive runs
    with the given probe results (section 8 lists them as fail or
    success): the target at the end and the events created on the way. *)
Fixpoint follow (oks : list bool) (t : Target) : Target * list Event :=
  match oks with
  | [] => (t, [])
  | ok :: rest =>
      let '(t', evs, _) := monitor_target ok t in
      let '(t'', evs') := follow rest t' in
      (t'', evs ++ evs')
  end.

(** The number of positions at which two registries differ in status. *)
Fixpoint transitions (before after : list Target) : nat :=
  match before, after with
  | b :: bs, a :: as_ =>
      (if status_eqb (status b) (status a) then 0 else 1) + transitions bs as_
  | _, _ => 0
  end.

(** The events that the status changes between two registries call
    for: one per position whose status differs, in registry order. *)
Fixpoint transition_events (before after : list Target) : list Event :=
  match before, after with
  | b :: bs, a :: as_ =>
      (if status_eqb (status b) (status a) then []
       else [{| event_type := transition_type (kind a) (status a); subject := ip a |}])
        ++ transition_events bs as_
  | _, _ => []
  end.

Definition with_state (s : Status) (n : nat) (t : Target) : Target :=
  {| ip := ip t; kind := kind t; threshold := threshold t;
     status := s; failures := n |}.

End MonitorCycle.

Module RunCycle.

Inductive Source := Timer | ManualApi.

(** The answer to [POST /monitoring/run-cycle], as the API guide gives
    it. *)
Record Reply := {
  reply_message : string;
  reply_status : string
}.

Definition started_in_background : Reply :=
  {| reply_message := "Monitoring cycle started in background";
     reply_status := "running" |}.

(** The number of cycles running and of cycles started so far. *)
Record Cycles := {
  active : nat;
  started : nat
}.


(** Modelled from the spec: a trigger of the Monitor Cycle, whose
    backend code is not part of the sources.  Section 1 reports that the
    source has no concurrency coordination, and the API guide documents
    one answer to a run-cycle request, 'started in background': every
    trigger starts a cycle, whether or not one is running. *)
Definition trigger (src : Source) (g : Cycles) : Cycles * Reply :=
  ({| active := S (active g); started := S (started g) |}, started_in_background).

(** Modelled from the spec: a running cycle returns to Idle when its
    Persisting phase is over (section 4.2). *)
Definition finish (g : Cycles) : Cycles :=
  {| active := pred (active g); started := started g |}.

Inductive Event :=
| Trigger (src : Source)
| Finished.

Definition step (g : Cycles) (ev : Event) : Cycles :=
  match ev with
  | Trigger src => fst (trigger src g)
  | Finished => finish g
  end.





End RunCycle.

(* ===================================================================== *)
(** ** Relative timestamps                                                *)
(* ===================================================================== *)

Module Timestamps.

(** [formatTimestamp], which the events page, the dashboard and the
    device page all spell out: [now_ms] and [date_ms] are the
    [getTime()] of the current date and of the parsed timestamp. *)
Definition formatTimestamp (now_ms date_ms : Z) : string :=
  let diffMs := (now_ms - date_ms)%Z in
  let diffMins := (diffMs / 60000)%Z in
  if (diffMins <? 1)%Z then "Just now"
  else if (diffMins <? 60)%Z then Js.string_of_Z diffMins ++ "m ago"
  else
    let diffHours := (diffMins / 60)%Z in
    if (diffHours <? 24)%Z then Js.string_of_Z diffHours ++ "h ago"
    else
      let diffDays := (diffHours / 24)%Z in
      Js.string_of_Z diffDays ++ "d ago".

End Timestamps.

(* ===================================================================== *)
(** ** Links page                                                         *)
(* ===================================================================== *)

Module LinksComponent.

(** The two required fields of [LinkCreate]. *)
Record LinkCreate := {
  source_device_id : string;
  target_device_id : string
}.

(** [createLink] up to the request: the links posted so far and the
    notifier. *)
Definition createLink (newLink : LinkCreate) (posted : list LinkCreate)
           (svc : NotificationService.Notifier)
  : list LinkCreate * NotificationService.Notifier :=
  if (source_device_id newLink =? "") || (target_device_id newLink =? "") then
    (posted,
     NotificationService.warning
       (Js.JStr "Please select both source and target devices") None None svc)
  else if source_device_id newLink =? target_device_id newLink then
    (posted,
     NotificationService.warning
       (Js.JStr "Source and target must be different devices") None None svc)
  else (posted ++ [newLink], svc).

End LinksComponent.

(* ===================================================================== *)
(** ** Discovery page: adding the selection to monitoring                 *)
(* ===================================================================== *)

Module Discovery.

Record ScanResult := {
  ip : string;
  mac : option string;
  hostname : option string;
  manufacturer : option string;
  is_alive : bool;
  response_time_ms : option Q
}.

(** The body of a [createDevice] request. *)
Record DeviceCreate := {
  dc_name : string;
  dc_ip : string;
  dc_mac : option string;
  dc_hostname : option string;
  dc_device_type : string;
  dc_is_monitored : bool
}.

Record Page := {
  selection : DiscoveryComponent.State;
  discoveredDevices : list ScanResult
}.

(** [s.split('.').pop()]: what follows the last dot. *)
Fixpoint after_last_dot (acc s : string) : string :=
  match s with
  | EmptyString => acc
  | String c rest =>
      if Ascii.eqb c "." then after_last_dot "" rest
      else after_last_dot (acc ++ String c "") rest
  end.

(** [field || undefined]. *)
Definition or_undefined (f : option string) : option string :=
  match f with
  | Some v => if v =? "" then None else Some v
  | None => None
  end.

Definition deviceData (device : ScanResult) (selected_ip : string) : DeviceCreate :=
  {| dc_name := match or_undefined (hostname device) with
                | Some h => h
                | None => "Device-" ++ after_last_dot "" selected_ip
                end;
     dc_ip := ip device;
     dc_mac := or_undefined (mac device);
     dc_hostname := or_undefined (hostname device);
     dc_device_type := "pc";
     dc_is_monitored := true |}.

(** The requests of [addSelectedToMonitoring], one per selected address
    that is among the discovered devices, in selection order. *)
Fixpoint requests (selected : list string) (discovered : list ScanResult)
  : list DeviceCreate :=
  match selected with
  | [] => []
  | i :: rest =>
      match find (fun d => ip d =? i) discovered with
      | Some device => deviceData device i :: requests rest discovered
      | None => requests rest discovered
      end
  end.

(** The answer to a [createDevice] request. *)
Inductive Answer :=
| Created
| Failed (r : Http.HttpErrorResponse).


Section Monitoring.

(** [JSON.stringify] of the JavaScript runtime. *)
Variable JSON_stringify : Js.JsValue -> string.

(** What the answers to the requests set off, in the order in which
    they arrive: the [next] handler of the component for a device that
    was created; for a failed request the error interceptor, through
    which every request of the client passes, and nothing after it, the
    subscription having no [error] handler.  (The redirect to the login
    page on a 401 touches neither the selection nor the notifier.) *)
Fixpoint settle (answers : list Answer) (successCount : nat) (p : Page)
         (svc : NotificationService.Notifier)
  : Page * NotificationService.Notifier :=
  match answers with
  | [] => (p, svc)
  | Created :: rest =>
      let successCount := S successCount in
      if (successCount
          =? length (DiscoveryComponent.selectedDevices (selection p)))%nat
      then
        settle rest successCount
          {| selection := {| DiscoveryComponent.selectedDevices := [] |};
             discoveredDevices := discoveredDevices p |}
          (NotificationService.success
             (Js.JStr ("Added " ++ Js.string_of_nat successCount ++ " devices"))
             None None svc)
      else settle rest successCount p svc
  | Failed r :: rest =>
      settle rest successCount p
        (fst (ErrorInterceptor.intercept JSON_stringify r svc))
  end.

(** [addSelectedToMonitoring] with the answers to its requests: the
    requests it sent, the page and the notifier at the end. *)
Definition addSelectedToMonitoring (answers : list Answer) (p : Page)
           (svc : NotificationService.Notifier)
  : list DeviceCreate * Page * NotificationService.Notifier :=
  match DiscoveryComponent.selectedDevices (selection p) with
  | [] =>
      ([], p,
       NotificationService.warning (Js.JStr "No devices selected") None None svc)
  | _ =>
      let sent := requests (DiscoveryComponent.selectedDevices (selection p))
                           (discoveredDevices p) in
      let '(p', svc') := settle (firstn (length sent) answers) 0 p svc in
      (sent, p', svc')
  end.


End Monitoring.

(** [selectAll] and [deselectAll]. *)
Definition selectAll (p : Page) : Page :=
  {| selection := {| DiscoveryComponent.selectedDevices := map ip (discoveredDevices p) |};
     discoveredDevices := discoveredDevices p |}.



(** *** Export *)

(** [field || '']. *)
Definition or_empty (f : option string) : string :=
  match f with
  | Some v => v
  | None => ""
  end.

Definition newline : string := String "010"%char "".

Definition headers : list string :=
  ["IP"; "MAC"; "Hostname"; "Manufacturer"; "Status"; "Response Time"].

Section CsvExport.

(** [Number.prototype.toString] of the JavaScript runtime. *)
Variable number_toString : Q -> string.

Definition csv_row (d : ScanResult) : list string :=
  [ip d;
   or_empty (mac d);
   or_empty (hostname d);
   or_empty (manufacturer d);
   if is_alive d then "Alive" else "Down";
   or_empty (option_map number_toString (response_time_ms d))].

Definition devicesToCSV (devices : list ScanResult) : string :=
  let rows := map csv_row devices in
  Js.concat_with newline (map (Js.concat_with ",") (headers :: rows)).

End CsvExport.

(** Reading a text back: cutting it at every occurrence of a character. *)
Fixpoint split_on (c : ascii) (acc s : string) : list string :=
  match s with
  | EmptyString => [acc]
  | String a rest =>
      if Ascii.eqb a c then acc :: split_on c "" rest
      else split_on c (acc ++ String a "") rest
  end.

Fixpoint has_char (c : ascii) (s : string) : bool :=
  match s with
  | EmptyString => false
  | String a rest => Ascii.eqb a c || has_char c rest
  end.

(** A comma-separated text read line by line, field by field. *)
Definition read_csv (text : string) : list (list string) :=
  map (split_on "," "") (split_on "010" "" text).

(** A field that a reader takes for one field: no comma, no line break. *)
Definition plain (field : string) : bool :=
  negb (has_char "," field) && negb (has_char "010" field).

End Discovery.

(* ===================================================================== *)
(** ** Concrete inputs                                                    *)
(* ===================================================================== *)

(** A conflict answer of the device collection. *)
Definition conflict_response : Http.HttpErrorResponse :=
  {| Http.status := 409;
     Http.statusText := "Conflict";
     Http.message := "Http failure response for /api/v1/devices: 409 Conflict";
     Http.error :=
       Http.ServerBody
         (Js.JObj [("detail", Js.JStr "Device with this IP already exists")]) |}.

(** The device of the two runs of section 8: 10.0.0.5 with threshold 3,
    UP so far. *)
Definition device_10_0_0_5 : MonitorCycle.Target :=
  {| MonitorCycle.ip := "10.0.0.5"; MonitorCycle.kind := MonitorCycle.Device;
     MonitorCycle.threshold := 3; MonitorCycle.status := MonitorCycle.UP;
     MonitorCycle.failures := 0 |}.

(** Three messages of the push channel. *)
Definition three_messages : list WebsocketService.WebSocketMessage :=
  [{| WebsocketService.type := "DEVICE_STATUS";
      WebsocketService.data := Js.JStr "first"; WebsocketService.timestamp := None |};
   {| WebsocketService.type := "PONG";
      WebsocketService.data := Js.JNull; WebsocketService.timestamp := None |};
   {| WebsocketService.type := "DEVICE_STATUS";
      WebsocketService.data := Js.JStr "second"; WebsocketService.timestamp := None |}].

(* ===================================================================== *)
(** * Properties                                                          *)
(* ===================================================================== *)

(** ** Selection lists *)

Section SelectionFacts.
Import JsArray Selection.

Lemma indexOf_bounds (x : string) (l : list string) :
  (indexOf x l = -1 \/ 0 <= indexOf x l < Z.of_nat (length l))%Z.
Proof.
  induction l as [|y l IH]; simpl; [now left|].
  destruct (y =? x); [right; lia|].
  destruct (indexOf x l <? 0)%Z eqn:E; [now left|].
  apply Z.ltb_ge in E. right. lia.
Qed.

Lemma indexOf_absent (x : string) (l : list string) :
  ~ In x l -> indexOf x l = (-1)%Z.
Proof.
  induction l as [|y l IH]; simpl; intros H; [reflexivity|].
  destruct (String.eqb_spec y x) as [->|_]; [tauto|].
  rewrite IH by tauto. reflexivity.
Qed.

Lemma indexOf_first (x : string) (l1 l2 : list string) :
  ~ In x l1 -> indexOf x (l1 ++ x :: l2) = Z.of_nat (length l1).
Proof.
  induction l1 as [|y l1 IH]; simpl; intros H.
  - now rewrite String.eqb_refl.
  - destruct (String.eqb_spec y x) as [->|_]; [tauto|].
    rewrite IH by tauto.
    destruct (Z.ltb_spec (Z.of_nat (length l1)) 0); lia.
Qed.

Lemma remove_at_middle (l1 l2 : list string) (x : string) :
  remove_at (length l1) (l1 ++ x :: l2) = l1 ++ l2.
Proof. induction l1 as [|y l1 IH]; simpl; [reflexivity|now rewrite IH]. Qed.

Lemma splice1_middle (l1 l2 : list string) (x : string) :
  splice1 (Z.of_nat (length l1)) (l1 ++ x :: l2) = l1 ++ l2.
Proof.
  unfold splice1.
  destruct (Z.ltb_spec (Z.of_nat (length l1)) 0) as [H|_]; [lia|].
  rewrite Z.min_l by (rewrite length_app; simpl; lia).
  rewrite Nat2Z.id. apply remove_at_middle.
Qed.

Lemma first_occurrence (x : string) (l : list string) :
  In x l -> exists l1 l2, l = l1 ++ x :: l2 /\ ~ In x l1.
Proof.
  induction l as [|y l IH]; simpl; [tauto|]. intros H.
  destruct (string_dec y x) as [->|Hne].
  - exists [], l. now split.
  - destruct H as [H|H]; [contradiction|].
    destruct (IH H) as (l1 & l2 & -> & Hn).
    exists (y :: l1), l2. split; [reflexivity|].
    simpl. tauto.
Qed.

Lemma toggle_absent (x : string) (l : list string) :
  ~ In x l -> toggle x l = l ++ [x].
Proof. intros H. unfold toggle. now rewrite indexOf_absent. Qed.

Lemma toggle_first (x : string) (l1 l2 : list string) :
  ~ In x l1 -> toggle x (l1 ++ x :: l2) = l1 ++ l2.
Proof.
  intros H. unfold toggle. rewrite indexOf_first by assumption.
  destruct (Z.gtb_spec (Z.of_nat (length l1)) (-1)); [|lia].
  apply splice1_middle.
Qed.

Lemma toggle_twice_absent (x : string) (l : list string) :
  ~ In x l -> toggle x (toggle x l) = l.
Proof.
  intros H. rewrite (toggle_absent x l H), (toggle_first x l [] H).
  apply app_nil_r.
Qed.

Lemma count_occ_single (x : string) (l1 l2 : list string) :
  count_occ string_dec (l1 ++ x :: l2) x <= 1 -> ~ In x l1 /\ ~ In x l2.
Proof.
  rewrite count_occ_app, count_occ_cons_eq by reflexivity. intros H.
  split; apply (count_occ_not_In string_dec); lia.
Qed.

Lemma toggle_twice_perm (x : string) (l : list string) :
  count_occ string_dec l x <= 1 -> Permutation (toggle x (toggle x l)) l.
Proof.
  intros H. destruct (in_dec string_dec x l) as [Hin|Hout].
  - destruct (first_occurrence x l Hin) as (l1 & l2 & -> & Hn1).
    destruct (count_occ_single x l1 l2 H) as [_ Hn2].
    rewrite toggle_first by assumption.
    rewrite toggle_absent by (rewrite in_app_iff; tauto).
    rewrite <- app_assoc. apply Permutation_app_head.
    symmetry. apply Permutation_cons_append.
  - now rewrite toggle_twice_absent.
Qed.

Lemma toggle_NoDup (x : string) (l : list string) :
  NoDup l -> NoDup (toggle x l).
Proof.
  intros H. destruct (in_dec string_dec x l) as [Hin|Hout].
  - destruct (first_occurrence x l Hin) as (l1 & l2 & -> & Hn1).
    rewrite toggle_first by assumption.
    now apply NoDup_remove_1 in H.
  - rewrite toggle_absent by assumption.
    apply NoDup_rev in H. rewrite <- (rev_involutive (l ++ [x])).
    apply NoDup_rev. rewrite rev_app_distr. simpl.
    constructor; [now rewrite <- in_rev|assumption].
Qed.

Lemma toggles_NoDup (ids l : list string) :
  NoDup l -> NoDup (toggles ids l).
Proof.
  unfold toggles. revert l.
  induction ids as [|i ids IH]; simpl; intros l H; [assumption|].
  apply IH, toggle_NoDup, H.
Qed.

Lemma toggleEventSelection_toggle (x : string) (c : EventsComponent.State) :
  EventsComponent.selectedEvents (EventsComponent.toggleEventSelection x c)
  = toggle x (EventsComponent.selectedEvents c).
Proof. reflexivity. Qed.

Lemma toggleDeviceSelection_toggle (x : string) (c : DiscoveryComponent.State) :
  DiscoveryComponent.selectedDevices (DiscoveryComponent.toggleDeviceSelection x c)
  = toggle x (DiscoveryComponent.selectedDevices c).
Proof.
  unfold DiscoveryComponent.toggleDeviceSelection, toggle.
  now destruct (indexOf x (DiscoveryComponent.selectedDevices c) >? -1)%Z.
Qed.

End SelectionFacts.

(** C10, as stated, fails on a selection that holds an id twice (the
    discovery page builds such a list with [selectAll] when a scan reports
    an address twice): two toggles of that id remove both occurrences, so
    the id that was selected is not selected any more. *)
Lemma toggle_twice_duplicate_counterexample :
  let c := {| DiscoveryComponent.selectedDevices := ["10.0.0.5"; "10.0.0.5"] |} in
  let c'' := DiscoveryComponent.toggleDeviceSelection "10.0.0.5"
               (DiscoveryComponent.toggleDeviceSelection "10.0.0.5" c) in
  DiscoveryComponent.selectedDevices c'' = []
  /\ ~ (forall x, In x (DiscoveryComponent.selectedDevices c'')
                  <-> In x (DiscoveryComponent.selectedDevices c)).
Proof.
  split; [reflexivity|].
  intros H. apply (H "10.0.0.5"). simpl. now left.
Qed.

(** C10 (amended): a single toggle appends the id when it is absent and
    removes its first occurrence when it is present; when the id occurs
    at most once, two toggles of it give back the same elements (a
    permutation of the selection, and the very same list when the id was
    absent); a duplicate-free selection stays duplicate-free under every
    sequence of toggles.  Both components' toggles are this function. *)
Theorem selection_toggle_spec (selected : list string) (id : string) :
  (~ In id selected -> Selection.toggle id selected = selected ++ [id]
                       /\ Selection.toggle id (Selection.toggle id selected) = selected)
  /\ (forall l1 l2, selected = l1 ++ id :: l2 -> ~ In id l1 ->
                    Selection.toggle id selected = l1 ++ l2)
  /\ (count_occ string_dec selected id <= 1 ->
      Permutation (Selection.toggle id (Selection.toggle id selected)) selected)
  /\ (NoDup selected -> forall ids, NoDup (Selection.toggles ids selected))
  /\ (forall c, EventsComponent.selectedEvents c = selected ->
                EventsComponent.selectedEvents (EventsComponent.toggleEventSelection id c)
                = Selection.toggle id selected)
  /\ (forall c, DiscoveryComponent.selectedDevices c = selected ->
                DiscoveryComponent.selectedDevices
                  (DiscoveryComponent.toggleDeviceSelection id c)
                = Selection.toggle id selected).
Proof.
  repeat split.
  - now apply toggle_absent.
  - now apply toggle_twice_absent.
  - intros l1 l2 -> H. now apply toggle_first.
  - apply toggle_twice_perm.
  - intros H ids. now apply toggles_NoDup.
  - intros c <-. apply toggleEventSelection_toggle.
  - intros c <-. apply toggleDeviceSelection_toggle.
Qed.

Lemma selection_toggle_spec_witness :
  Selection.toggle "ev-1" ["ev-1"; "ev-2"] = ["ev-2"]
  /\ Permutation (Selection.toggle "ev-1" (Selection.toggle "ev-1" ["ev-1"; "ev-2"]))
                 ["ev-1"; "ev-2"]
  /\ Selection.toggle "ev-3" (Selection.toggle "ev-3" ["ev-1"; "ev-2"]) = ["ev-1"; "ev-2"]
  /\ NoDup (Selection.toggles ["ev-1"; "ev-3"; "ev-1"] ["ev-1"; "ev-2"]).
Proof.
  pose proof (selection_toggle_spec ["ev-1"; "ev-2"] "ev-1") as (_ & Hfirst & Hperm & Hnd & _).
  pose proof (selection_toggle_spec ["ev-1"; "ev-2"] "ev-3") as (Habs & _).
  assert (Hnodup : NoDup ["ev-1"; "ev-2"]).
  { repeat constructor; simpl; intros H; repeat destruct H as [H|H]; discriminate || exact H. }
  split; [|split; [|split]].
  - apply (Hfirst [] ["ev-2"]); [reflexivity|intros []].
  - apply Hperm. vm_compute. apply le_n.
  - apply Habs. simpl. intros H; repeat destruct H as [H|H]; discriminate || exact H.
  - apply Hnd, Hnodup.
Defined.

(** ** Notifications and API errors *)

Section NotificationFacts.
Import Js NotificationService.

Lemma truthy_not_nullish (v : JsValue) : truthy v = true -> nullish v = false.
Proof. destruct v; simpl; congruence. Qed.




Lemma truthy_opt_get (v : JsValue) (k : string) :
  truthy (opt_get v k) = true -> nullish v = false /\ get v k = Normal (opt_get v k).
Proof.
  unfold opt_get, get. destruct (nullish v); simpl; [discriminate|auto].
Qed.

Lemma opt_get_defined (v : JsValue) (k : string) :
  nullish v = false -> get v k = Normal (opt_get v k).
Proof. unfold opt_get, get. now intros ->. Qed.


(** ... and throws on the first one that is. *)
Lemma map_msg_throws (d : JsValue) (items : list JsValue) :
  nullish d = true ->
  exists e,
    map_throwing (fun d => m <- get d "msg" ;; Normal (or_else m d)) (d :: items)
    = Thrown e.
Proof. intros H. simpl. unfold get at 1. rewrite H. simpl. now eexists. Qed.

(** The cases of [apiErrorMessage], one by one. *)
Lemma apiErrorMessage_string_detail (err : JsValue) (s : string) :
  detail_of err = JStr s -> s <> "" -> apiErrorMessage err = Normal (JStr s).
Proof.
  intros Hd Hs. unfold apiErrorMessage.
  assert (Ht : truthy (detail_of err) = true).
  { rewrite Hd. simpl. now destruct (String.eqb_spec s ""). }
  rewrite Ht. unfold detail_of in *.
  destruct (truthy_opt_get _ _ Ht) as [Hb Hg].
  assert (He : nullish err = false).
  { destruct err; simpl in *; try reflexivity; discriminate. }
  rewrite (opt_get_defined err "error" He). simpl.
  rewrite Hg. simpl. now rewrite Hd.
Qed.


Lemma apiErrorMessage_no_detail (err : JsValue) :
  truthy (detail_of err) = false ->
  apiErrorMessage err =
  Normal (if truthy (opt_get err "message") then opt_get err "message"
          else if is_string err then err
          else default_message).
Proof.
  intros Hf. unfold apiErrorMessage. rewrite Hf.
  destruct (truthy (opt_get err "message")) eqn:Hm; [|now destruct (is_string err)].
  now destruct (truthy_opt_get _ _ Hm) as [_ ->].
Qed.

End NotificationFacts.


(** An empty [detail] array is truthy and joins to the empty text. *)
Example showApiError_empty_array_detail :
  NotificationService.showApiError
    (Js.JObj [("error", Js.JObj [("detail", Js.JArr [])])]) NotificationService.fresh
  = Js.Normal (NotificationService.one_error_toast (Js.JStr "") NotificationService.fresh).
Proof. reflexivity. Qed.

(** A [message] that is an empty array is truthy and is shown as it is:
    it renders as the empty text. *)
Example showApiError_empty_array_message :
  NotificationService.showApiError
    (Js.JObj [("message", Js.JArr [])]) NotificationService.fresh
  = Js.Normal (NotificationService.one_error_toast (Js.JArr []) NotificationService.fresh)
  /\ Js.to_string (Js.JArr []) = "".
Proof. split; reflexivity. Qed.

(** A [null] element of a [detail] array makes the element callback throw. *)
Example showApiError_null_element_throws :
  exists e,
    NotificationService.showApiError
      (Js.JObj [("error", Js.JObj [("detail", Js.JArr [Js.JNull])])])
      NotificationService.fresh
    = Js.Thrown e.
Proof. eexists. reflexivity. Qed.

(** A FastAPI validation detail: the [msg] fields joined by a comma. *)
Example showApiError_validation_detail :
  NotificationService.showApiError
    (Js.JObj [("error",
        Js.JObj [("detail",
          Js.JArr [Js.JObj [("loc", Js.JArr [Js.JStr "body"; Js.JStr "ip"]);
                            ("msg", Js.JStr "invalid ip")];
                   Js.JObj [("msg", Js.JStr "field required")]])])])
    NotificationService.fresh
  = Js.Normal (NotificationService.one_error_toast
                 (Js.JStr "invalid ip, field required") NotificationService.fresh).
Proof. reflexivity. Qed.



(** ** The error interceptor *)

Section InterceptorFacts.
Import Js Http.

Variable JSON_stringify : JsValue -> string.

Lemma errorMessage_string_detail (r : HttpErrorResponse) (body : JsValue) (d : string) :
  error r = ServerBody body -> opt_get body "detail" = JStr d -> d <> "" ->
  ErrorInterceptor.errorMessage JSON_stringify r = Normal (JStr d).
Proof.
  intros Hb Hd Hne. unfold ErrorInterceptor.errorMessage. rewrite Hb, Hd. simpl.
  now destruct (String.eqb_spec d "").
Qed.

Lemma showApiError_new_Error (d : string) (svc : NotificationService.Notifier) :
  d <> "" ->
  NotificationService.showApiError (new_Error (JStr d)) svc
  = Normal (NotificationService.one_error_toast (JStr d) svc).
Proof.
  intros Hne. unfold NotificationService.showApiError.
  rewrite apiErrorMessage_no_detail by reflexivity. simpl.
  now destruct (String.eqb_spec d "").
Qed.

(** The auth interceptor hands the response on as it received it. *)
Lemma auth_intercept_rethrows (r : HttpErrorResponse) (token : option string) :
  snd (AuthInterceptor.intercept r token) = r.
Proof. unfold AuthInterceptor.intercept. now destruct (status r =? 401)%Z. Qed.

End InterceptorFacts.

(** C5, as stated, fails: the interceptor does not hand the response on.
    The subscriber receives a fresh [Error] that carries the detail text
    as its message and nothing else, so the status and the body are gone
    (here with a [JSON.stringify] that is never reached). *)
Lemma intercept_replaces_error_counterexample :
  let thrown :=
    snd (ErrorInterceptor.intercept (fun _ => "") conflict_response
           NotificationService.fresh) in
  thrown = Js.JObj [("message", Js.JStr "Device with this IP already exists")]
  /\ thrown <> Http.to_js conflict_response
  /\ Js.field thrown "status" = Js.JUndefined
  /\ Js.field (Http.to_js conflict_response) "status" = Js.JNum 409.
Proof. repeat split. discriminate. Qed.

(** C5 (amended): for a server answer whose body carries a non-empty
    string detail, the interceptor hands the subscriber a new [Error]
    whose message is that detail text (the response itself is dropped),
    and [showApiError], called on what the subscriber received, shows
    exactly one error toast with that same text; the interceptor's own
    toast is the one [notify] picks by status code. *)
Theorem crud_detail_reaches_toast
        (JSON_stringify : Js.JsValue -> string)
        (r : Http.HttpErrorResponse) (body : Js.JsValue) (d : string)
        (svc : NotificationService.Notifier) :
  Http.error r = Http.ServerBody body ->
  Js.opt_get body "detail" = Js.JStr d ->
  d <> "" ->
  let svc' := fst (ErrorInterceptor.intercept JSON_stringify r svc) in
  let thrown := snd (ErrorInterceptor.intercept JSON_stringify r svc) in
  thrown = Js.JObj [("message", Js.JStr d)]
  /\ svc' = ErrorInterceptor.notify r (Js.JStr d) svc
  /\ NotificationService.showApiError thrown svc'
     = Js.Normal (NotificationService.one_error_toast (Js.JStr d) svc').
Proof.
  intros Hb Hd Hne. unfold ErrorInterceptor.intercept.
  rewrite (errorMessage_string_detail JSON_stringify r body d Hb Hd Hne). simpl.
  split; [reflexivity|]. split; [reflexivity|].
  now apply (showApiError_new_Error d).
Qed.

Lemma crud_detail_reaches_toast_witness :
  map NotificationService.message
      (NotificationService.emitted
         (fst (ErrorInterceptor.intercept (fun _ => "") conflict_response
                 NotificationService.fresh)))
  = [Js.JStr "Device with this IP already exists"]
  /\ exists svc'',
       NotificationService.showApiError
         (snd (ErrorInterceptor.intercept (fun _ => "") conflict_response
                 NotificationService.fresh))
         (fst (ErrorInterceptor.intercept (fun _ => "") conflict_response
                 NotificationService.fresh))
       = Js.Normal svc''
       /\ map NotificationService.message (NotificationService.emitted svc'')
          = [Js.JStr "Device with this IP already exists";
             Js.JStr "Device with this IP already exists"].
Proof.
  destruct (crud_detail_reaches_toast (fun _ => "") conflict_response
              (Js.JObj [("detail", Js.JStr "Device with this IP already exists")])
              "Device with this IP already exists" NotificationService.fresh)
    as (_ & Hsvc & Hshow).
  - reflexivity.
  - reflexivity.
  - discriminate.
  - split; [reflexivity|].
    eexists. split; [exact Hshow|reflexivity].
Defined.

(** On a 404 the interceptor's own toast is a fixed text, not the detail. *)
Example intercept_not_found_toast :
  map NotificationService.message
      (NotificationService.emitted
         (fst (ErrorInterceptor.intercept (fun _ => "")
                 {| Http.status := 404; Http.statusText := "Not Found";
                    Http.message := "Http failure response";
                    Http.error :=
                      Http.ServerBody (Js.JObj [("detail", Js.JStr "Device not found")]) |}
                 NotificationService.fresh)))
  = [Js.JStr "Resource not found"].
Proof. reflexivity. Qed.

(** ** Probes and the ping-one action *)

Section ProbeFacts.
Import Js Probe.

Lemma probe_failure_classified (p : Protocol) (timeout_ms : Z) (net : NetworkReply) :
  ordinary_failure timeout_ms net = true ->
  reachable (probe p timeout_ms net) = false
  /\ latency (probe p timeout_ms net) = None
  /\ (error_class (probe p timeout_ms net) = Some timeout
      \/ error_class (probe p timeout_ms net) = Some unreachable).
Proof.
  destruct net; simpl; try discriminate; auto.
  destruct (latency_ms <=? timeout_ms)%Z; simpl; [discriminate|auto].
Qed.

(** The probe never answers "reachable" and "failed" at once. *)
Lemma probe_result_variant (p : Protocol) (timeout_ms : Z) (net : NetworkReply) :
  let r := probe p timeout_ms net in
  (reachable r = true /\ latency r <> None /\ error_class r = None)
  \/ (reachable r = false /\ latency r = None /\ error_class r <> None).
Proof.
  destruct net; simpl; try (right; repeat split; discriminate).
  destruct (latency_ms <=? timeout_ms)%Z; simpl;
    [left|right]; repeat split; discriminate.
Qed.

(** A reply slower than the timeout counts as a timeout. *)
Lemma probe_late_reply (p : Protocol) (timeout_ms l : Z) :
  (timeout_ms < l)%Z ->
  probe p timeout_ms (Replied l)
  = {| reachable := false; latency := None; error_class := Some timeout |}.
Proof. intros H. simpl. destruct (Z.leb_spec l timeout_ms); [lia|reflexivity]. Qed.

End ProbeFacts.

(** C4: an ordinary network failure (no reply within the timeout, host
    unreachable) comes back from the ping-one action on the success path,
    as a result with [is_alive] false and an error classification; both
    ping handlers of the client then return normally and report the
    device as DOWN with a plain toast, not through [showApiError]. *)
Theorem ping_failure_is_a_result
        (timeout_ms : Z) (net : Probe.NetworkReply)
        (c : DeviceDetailComponent.State) (device : DevicesComponent.Device)
        (svc : NotificationService.Notifier) :
  Probe.ordinary_failure timeout_ms net = true ->
  let r := Probe.probe Probe.ICMP timeout_ms net in
  Probe.ping_one timeout_ms net = Probe.Next (Probe.ping_response r)
  /\ Probe.reachable r = false
  /\ (Probe.error_class r = Some Probe.timeout
      \/ Probe.error_class r = Some Probe.unreachable)
  /\ Js.field (Probe.ping_response r) "is_alive" = Js.JBool false
  /\ DeviceDetailComponent.pingDevice (Probe.ping_one timeout_ms net) c svc
     = Js.Normal
         ({| DeviceDetailComponent.deviceId := DeviceDetailComponent.deviceId c;
             DeviceDetailComponent.isPinging := false;
             DeviceDetailComponent.pingResult := Probe.ping_response r |},
          NotificationService.error (Js.JStr "Device is DOWN") None None svc)
  /\ DevicesComponent.pingDevice device (Probe.ping_one timeout_ms net) svc
     = Js.Normal
         (NotificationService.error
            (Js.JStr (DevicesComponent.name device ++ " is DOWN")) None None
            (NotificationService.info
               (Js.JStr ("Pinging " ++ DevicesComponent.name device ++ "..."))
               None None svc)).
Proof.
  intros Hf. destruct net as [l| | |]; try discriminate Hf; simpl in *.
  - unfold Probe.ping_one. simpl.
    destruct (l <=? timeout_ms)%Z; [discriminate Hf|]. simpl. repeat split; auto.
  - repeat split; auto.
  - repeat split; auto.
Qed.

Lemma ping_failure_is_a_result_witness :
  Probe.ping_one 2000 Probe.NoReply
  = Probe.Next (Js.JObj [("is_alive", Js.JBool false);
                         ("response_time_ms", Js.JNull);
                         ("error", Js.JStr "timeout")])
  /\ exists svc',
       DevicesComponent.pingDevice
         {| DevicesComponent.id := "dev-001"; DevicesComponent.name := "Core Router 1" |}
         (Probe.ping_one 2000 Probe.NoReply) NotificationService.fresh
       = Js.Normal svc'
       /\ map NotificationService.message (NotificationService.emitted svc')
          = [Js.JStr "Pinging Core Router 1..."; Js.JStr "Core Router 1 is DOWN"].
Proof.
  destruct (ping_failure_is_a_result 2000 Probe.NoReply
              {| DeviceDetailComponent.deviceId := "dev-001";
                 DeviceDetailComponent.isPinging := false;
                 DeviceDetailComponent.pingResult := Js.JNull |}
              {| DevicesComponent.id := "dev-001"; DevicesComponent.name := "Core Router 1" |}
              NotificationService.fresh eq_refl)
    as (Hping & _ & _ & _ & _ & Hdev).
  split; [exact Hping|].
  eexists. split; [exact Hdev|reflexivity].
Defined.

(** ** The push channel: filtering and the heartbeat *)

Section ChannelFacts.
Import Js WebsocketService.

Lemma no_terminal_next {A} (xs : list A) :
  existsb terminal (map next xs) = false.
Proof. induction xs; simpl; auto. Qed.

Lemma accept_next {A} (log : list (Signal A)) (sg : Signal A) :
  existsb terminal log = false -> accept log sg = log ++ [sg].
Proof. unfold accept. now intros ->. Qed.

(** While only messages arrive, the observer has seen the payloads of
    the matching ones so far, in order. *)
Lemma forward_messages (ty : string) (msgs : list WebSocketMessage) (seen : list JsValue) :
  fold_left (forward ty) (map next msgs) (map next seen)
  = map next (seen ++ map data (filter (fun m => type m =? ty) msgs)).
Proof.
  revert seen. induction msgs as [|m msgs IH]; intros seen; simpl.
  - now rewrite app_nil_r.
  - destruct (type m =? ty); simpl.
    + rewrite accept_next by apply no_terminal_next.
      change [next (data m)] with (map (@next JsValue) [data m]).
      rewrite <- map_app, IH, <- app_assoc. reflexivity.
    + apply IH.
Qed.

Lemma send_connected (m : WebSocketMessage) (s : Service) :
  isConnected s = true -> sent (send m s) = sent s ++ [m].
Proof. unfold send. now intros ->. Qed.

Lemma send_disconnected (m : WebSocketMessage) (s : Service) :
  isConnected s = false -> send m s = s.
Proof. unfold send. now intros ->. Qed.

End ChannelFacts.

Example device_status_of_three :
  WebsocketService.getMessagesByType "DEVICE_STATUS"
    (map WebsocketService.next three_messages)
  = [WebsocketService.next (Js.JStr "first"); WebsocketService.next (Js.JStr "second")].
Proof. reflexivity. Qed.

(** After the source completes nothing more is forwarded. *)
Example nothing_after_complete :
  WebsocketService.getMessagesByType "DEVICE_STATUS"
    (WebsocketService.complete :: map WebsocketService.next three_messages)
  = [WebsocketService.complete].
Proof. reflexivity. Qed.

(** A ping on a closed connection sends nothing. *)
Example sendPing_disconnected :
  WebsocketService.sent
    (WebsocketService.sendPing "2025-01-17T11:00:00.000Z"
       (WebsocketService.disconnect WebsocketService.connected)) = [].
Proof. reflexivity. Qed.

(** C6: for every sequence of messages delivered on [messages$] and
    every type [ty], the stream [getMessagesByType ty] emits exactly the
    [data] payloads of the messages whose [type] is [ty], in the order of
    arrival; and whatever [sendPing] puts on the socket is one envelope of
    type ['PING'] (put there exactly when the socket is connected). *)
Theorem getMessagesByType_filters
        (ty : string) (msgs : list WebsocketService.WebSocketMessage)
        (now : string) (s : WebsocketService.Service) :
  WebsocketService.getMessagesByType ty (map WebsocketService.next msgs)
  = map WebsocketService.next
        (map WebsocketService.data
             (filter (fun m => WebsocketService.type m =? ty) msgs))
  /\ (exists ping,
        WebsocketService.type ping = "PING"
        /\ WebsocketService.data ping = Js.JObj [("timestamp", Js.JStr now)]
        /\ WebsocketService.sent (WebsocketService.sendPing now s)
           = WebsocketService.sent s
               ++ (if WebsocketService.isConnected s then [ping] else [])).
Proof.
  split.
  - unfold WebsocketService.getMessagesByType.
    apply (forward_messages ty msgs []).
  - eexists {| WebsocketService.type := "PING" |}. simpl.
    split; [reflexivity|]. split; [reflexivity|].
    unfold WebsocketService.sendPing, WebsocketService.send.
    destruct (WebsocketService.isConnected s); simpl; [reflexivity|].
    now rewrite app_nil_r.
Qed.

(** ** The push channel: reconnection *)

Section ReconnectFacts.
Import WebsocketService.

Variable env : Environment.










End ReconnectFacts.


(** Ten failed attempts in a row with the production settings: the
    eleventh close arms no timer and the last status is ERROR. *)
Example reconnect_gives_up :
  let s := WebsocketService.run WebsocketService.environment_prod
             (concat (repeat [WebsocketService.SocketClosed;
                              WebsocketService.TimerFired 0] 10)
                ++ [WebsocketService.SocketClosed])
             WebsocketService.connected in
  WebsocketService.timers s = []
  /\ WebsocketService.opened s = 11
  /\ WebsocketService.reconnectAttempts s = 10
  /\ last (WebsocketService.statusLog s) WebsocketService.CONNECTED
     = WebsocketService.ERROR.
Proof. vm_compute. repeat split. Qed.



(** ** Pagination *)

Section PagingFacts.
Import Paging.

Lemma ceil_div_spec (a b : Z) :
  (0 < b)%Z -> ((ceil_div a b - 1) * b < a <= ceil_div a b * b)%Z.
Proof.
  intros Hb. unfold ceil_div.
  pose proof (Z.div_mod (- a) b ltac:(lia)) as Hdm.
  pose proof (Z.mod_pos_bound (- a) b Hb) as Hm.
  nia.
Qed.

Lemma ceil_div_pos (a b : Z) : (0 < a)%Z -> (0 < b)%Z -> (1 <= ceil_div a b)%Z.
Proof. intros Ha Hb. pose proof (ceil_div_spec a b Hb). nia. Qed.

Lemma list_page_length {A} (page : positive) (n : nat) (items : list A) :
  length (list_page page n items)
  = Nat.min n (length items - (Pos.to_nat page - 1) * n).
Proof. unfold list_page. now rewrite length_firstn, length_skipn. Qed.

Lemma list_page_nth {A} (page : positive) (n i : nat) (items : list A) :
  i < n ->
  nth_error (list_page page n items) i
  = nth_error items ((Pos.to_nat page - 1) * n + i).
Proof.
  intros Hi. unfold list_page. rewrite nth_error_firstn, nth_error_skipn.
  destruct (Nat.ltb_spec i n); [reflexivity|lia].
Qed.

(** The events page always reports at least one page. *)
Lemma events_totalPages_pos (c : EventsComponent.State) :
  (1 <= EventsComponent.totalPages c)%Z.
Proof.
  unfold EventsComponent.totalPages.
  destruct (EventsComponent.totalEvents c =? 0)%Z; lia.
Qed.

(** The devices page reports as many pages as the devices need, which
    is none when there is no device. *)
Lemma devices_totalPages_pos (c : DevicesComponent.State) :
  (0 < DevicesComponent.totalDevices c)%Z -> (0 < DevicesComponent.pageSize c)%Z ->
  (1 <= DevicesComponent.totalPages (DevicesComponent.calculatePagination c))%Z.
Proof. intros Ht Hp. simpl. now apply ceil_div_pos. Qed.

End PagingFacts.

(** Without a device the devices page derives zero pages. *)
Example devices_no_pages :
  DevicesComponent.totalPages
    (DevicesComponent.calculatePagination
       {| DevicesComponent.currentPage := 1; DevicesComponent.pageSize := 20;
          DevicesComponent.totalDevices := 0; DevicesComponent.totalPages := 0;
          DevicesComponent.pages := [] |}) = 0%Z.
Proof. reflexivity. Qed.

Example list_page_two_of_45 :
  Paging.list_page 2 20 (seq 1 45) = seq 21 20.
Proof. reflexivity. Qed.

Example list_page_three_of_45 :
  Paging.list_page 3 20 (seq 1 45) = [41; 42; 43; 44; 45].
Proof. reflexivity. Qed.

(** C8: over 45 devices, page 2 of size 20 is the 20 devices at
    positions 21 to 40 (indices 20 to 39); for a total of 45 and a page
    size of 20 both components derive 3 pages, numbered 1, 2, 3, and the
    events page never reports less than one page. *)
Theorem page_two_of_45
        {A : Type} (devices : list A)
        (ev : EventsComponent.State) (dv : DevicesComponent.State) :
  length devices = 45 ->
  EventsComponent.totalEvents ev = 45%Z -> EventsComponent.pageSize ev = 20%Z ->
  DevicesComponent.totalDevices dv = 45%Z -> DevicesComponent.pageSize dv = 20%Z ->
  length (Paging.list_page 2 20 devices) = 20
  /\ (forall i, i < 20 ->
        nth_error (Paging.list_page 2 20 devices) i = nth_error devices (20 + i))
  /\ Paging.list_page 2 20 devices = firstn 20 (skipn 20 devices)
  /\ EventsComponent.totalPages ev = 3%Z
  /\ DevicesComponent.totalPages (DevicesComponent.calculatePagination dv) = 3%Z
  /\ DevicesComponent.pages (DevicesComponent.calculatePagination dv) = [1; 2; 3]%Z
  /\ (forall c, (1 <= EventsComponent.totalPages c)%Z).
Proof.
  intros Hlen He Hes Hd Hds.
  split; [rewrite list_page_length, Hlen; reflexivity|].
  split; [intros i Hi; now rewrite list_page_nth|].
  split; [reflexivity|].
  split; [unfold EventsComponent.totalPages; rewrite He, Hes; reflexivity|].
  unfold DevicesComponent.calculatePagination. simpl. rewrite Hd, Hds.
  split; [reflexivity|]. split; [reflexivity|].
  apply events_totalPages_pos.
Qed.

Lemma page_two_of_45_witness :
  Paging.list_page 2 20 (seq 1 45) = firstn 20 (skipn 20 (seq 1 45))
  /\ nth_error (Paging.list_page 2 20 (seq 1 45)) 0 = Some 21
  /\ nth_error (Paging.list_page 2 20 (seq 1 45)) 19 = Some 40
  /\ length (Paging.list_page 2 20 (seq 1 45)) = 20.
Proof.
  destruct (page_two_of_45 (seq 1 45)
              {| EventsComponent.selectedEvents := []; EventsComponent.currentPage := 2;
                 EventsComponent.pageSize := 20; EventsComponent.totalEvents := 45 |}
              {| DevicesComponent.currentPage := 2; DevicesComponent.pageSize := 20;
                 DevicesComponent.totalDevices := 45; DevicesComponent.totalPages := 0;
                 DevicesComponent.pages := [] |}
              eq_refl eq_refl eq_refl eq_refl eq_refl)
    as (Hlen & Hnth & Heq & _).
  split; [exact Heq|].
  split; [rewrite (Hnth 0) by lia; reflexivity|].
  split; [rewrite (Hnth 19) by lia; reflexivity|exact Hlen].
Defined.

(** ** The monitor cycle *)

Section MonitorFacts.
Import MonitorCycle.

Lemma status_eqb_eq (a b : Status) : status_eqb a b = true <-> a = b.
Proof. destruct a, b; simpl; split; congruence. Qed.

Lemma status_eqb_refl (a : Status) : status_eqb a a = true.
Proof. now destruct a. Qed.

Lemma monitor_target_fst (ok : bool) (t : Target) :
  fst (fst (monitor_target ok t)) = observe ok t.
Proof.
  unfold monitor_target.
  now destruct (status_eqb (status t) (status (observe ok t))).
Qed.

Lemma observe_fixed (ok : bool) (t : Target) :
  ip (observe ok t) = ip t /\ kind (observe ok t) = kind t
  /\ threshold (observe ok t) = threshold t.
Proof. unfold observe. now destruct ok. Qed.

(** One target, one run: one event and one message if the status
    changed, none otherwise. *)
Lemma monitor_target_events (ok : bool) (t : Target) :
  monitor_target ok t
  = (observe ok t,
     (if status_eqb (status t) (status (observe ok t)) then []
      else [{| event_type := transition_type (kind (observe ok t))
                                             (status (observe ok t));
               subject := ip (observe ok t) |}]),
     if status_eqb (status t) (status (observe ok t)) then []
     else [status_message (observe ok t)]).
Proof.
  unfold monitor_target. cbv zeta.
  now destruct (status_eqb (status t) (status (observe ok t))).
Qed.

Lemma transition_events_length (before after : list Target) :
  length (transition_events before after) = transitions before after.
Proof.
  revert after. induction before as [|b bs IH]; intros [|a as_]; simpl; auto.
  rewrite length_app, IH.
  now destruct (status_eqb (status b) (status a)).
Qed.

Lemma sweep_spec (timeout_ms : Z) (net : string -> Probe.NetworkReply)
      (targets : list Target) :
  let '(targets', evs, msgs) := sweep timeout_ms net targets in
  targets' = map (fun t => observe (Probe.reachable
                                      (Probe.probe Probe.ICMP timeout_ms (net (ip t)))) t)
                 targets
  /\ evs = transition_events targets targets'
  /\ length msgs = length evs.
Proof.
  induction targets as [|t rest IH]; simpl; [auto|].
  rewrite monitor_target_events.
  destruct (sweep timeout_ms net rest) as [[rest' evs'] msgs'].
  destruct IH as (-> & -> & Hlen). simpl.
  split; [reflexivity|]. split; [reflexivity|].
  rewrite !length_app, Hlen.
  now destruct (status_eqb _ _).
Qed.

Lemma transition_events_same (f : Target -> Target) (targets : list Target) :
  (forall t, In t targets -> status (f t) = status t) ->
  transition_events targets (map f targets) = [].
Proof.
  induction targets as [|t rest IH]; simpl; intros H; [reflexivity|].
  rewrite (H t) by now left. rewrite status_eqb_refl. simpl.
  apply IH. intros u Hu. apply H. now right.
Qed.





(** The policy of section 4.2 decides as the source does exactly for the
    thresholds that do not debounce. *)
Lemma observe_debounced_threshold_one (ok : bool) (t : Target) :
  threshold t <= 1 -> observe_debounced ok t = observe ok t.
Proof.
  intros H. unfold observe_debounced, observe. destruct ok; [reflexivity|].
  destruct (Nat.leb_spec (threshold t) (S (failures t))); [reflexivity|lia].
Qed.

End MonitorFacts.

(** C1: in every run of the Monitor Cycle the events appended to the
    store are exactly one per target whose status changed, in registry
    order, with as many messages published on the fan-out channel; a run
    whose probes leave every stored status as it is appends no event and
    publishes nothing. *)
Theorem one_event_per_transition
        (timeout_ms : Z) (net : string -> Probe.NetworkReply)
        (st : MonitorCycle.Store) :
  let probed t :=
    MonitorCycle.observe
      (Probe.reachable (Probe.probe Probe.ICMP timeout_ms (net (MonitorCycle.ip t)))) t in
  let st' := MonitorCycle.run_cycle timeout_ms net st in
  MonitorCycle.registry st' = map probed (MonitorCycle.registry st)
  /\ MonitorCycle.events st'
     = MonitorCycle.events st
         ++ MonitorCycle.transition_events (MonitorCycle.registry st)
                                           (MonitorCycle.registry st')
  /\ length (MonitorCycle.events st')
     = length (MonitorCycle.events st)
       + MonitorCycle.transitions (MonitorCycle.registry st) (MonitorCycle.registry st')
  /\ length (MonitorCycle.channel st')
     = length (MonitorCycle.channel st)
       + MonitorCycle.transitions (MonitorCycle.registry st) (MonitorCycle.registry st')
  /\ ((forall t, In t (MonitorCycle.registry st) ->
                 MonitorCycle.status (probed t) = MonitorCycle.status t) ->
      MonitorCycle.events st' = MonitorCycle.events st
      /\ MonitorCycle.channel st' = MonitorCycle.channel st).
Proof.
  intros probed st'. subst st'. unfold MonitorCycle.run_cycle.
  pose proof (sweep_spec timeout_ms net (MonitorCycle.registry st)) as H.
  destruct (MonitorCycle.sweep timeout_ms net (MonitorCycle.registry st))
    as [[targets evs] msgs].
  destruct H as (Ht & He & Hm). simpl. fold probed in Ht. subst targets evs.
  split; [reflexivity|]. split; [reflexivity|].
  rewrite !length_app, Hm, transition_events_length.
  split; [reflexivity|]. split; [reflexivity|].
  intros Hsame. rewrite (transition_events_same probed _ Hsame) in *.
  rewrite app_nil_r. split; [reflexivity|].
  destruct msgs; [now rewrite app_nil_r|discriminate Hm].
Qed.

Lemma one_event_per_transition_witness :
  let router :=
    {| MonitorCycle.ip := "10.0.0.1"; MonitorCycle.kind := MonitorCycle.Device;
       MonitorCycle.threshold := 1; MonitorCycle.status := MonitorCycle.UP;
       MonitorCycle.failures := 0 |} in
  let st := {| MonitorCycle.registry := [router]; MonitorCycle.events := [];
               MonitorCycle.channel := [] |} in
  MonitorCycle.events (MonitorCycle.run_cycle 2000 (fun _ => Probe.Replied 3) st) = []
  /\ MonitorCycle.events (MonitorCycle.run_cycle 2000 (fun _ => Probe.NoReply) st)
     = [{| MonitorCycle.event_type := MonitorCycle.DEVICE_DOWN;
           MonitorCycle.subject := "10.0.0.1" |}].
Proof.
  intros router st. split.
  - apply (one_event_per_transition 2000 (fun _ => Probe.Replied 3) st).
    intros t [<-|[]]. reflexivity.
  - destruct (one_event_per_transition 2000 (fun _ => Probe.NoReply) st)
      as (_ & He & _).
    rewrite He. reflexivity.
Defined.

Example three_failures_down :
  MonitorCycle.follow [false; false; false] device_10_0_0_5
  = (MonitorCycle.with_state MonitorCycle.DOWN 3 device_10_0_0_5,
     [{| MonitorCycle.event_type := MonitorCycle.DEVICE_DOWN;
         MonitorCycle.subject := "10.0.0.5" |}]).
Proof. reflexivity. Qed.

(** The second run of section 8: the device ends UP, but through two
    transitions and so with two events. *)
Example two_failures_then_success :
  MonitorCycle.follow [false; false; true] device_10_0_0_5
  = (device_10_0_0_5,
     [{| MonitorCycle.event_type := MonitorCycle.DEVICE_DOWN;
         MonitorCycle.subject := "10.0.0.5" |};
      {| MonitorCycle.event_type := MonitorCycle.DEVICE_UP;
         MonitorCycle.subject := "10.0.0.5" |}]).
Proof. reflexivity. Qed.

(** Where the source and the policy of section 4.2 part: the first
    failure on a device with threshold 3. *)
Example debounce_would_wait :
  MonitorCycle.status (MonitorCycle.observe false device_10_0_0_5)
  = MonitorCycle.DOWN
  /\ MonitorCycle.status (MonitorCycle.observe_debounced false device_10_0_0_5)
     = MonitorCycle.UP.
Proof. split; reflexivity. Qed.




(** ** Triggers of the monitor cycle *)

Section TriggerFacts.
Import RunCycle.





End TriggerFacts.



(* ===================================================================== *)
(** * Further properties of the client                                    *)
(* ===================================================================== *)

(** ** The push channel as a whole *)

Section ServiceFacts.
Import WebsocketService.

Variable env : Environment.

Lemma reconnect_attempts_bound (s : Service) :
  reconnectAttempts s <= maxReconnectAttempts env ->
  reconnectAttempts (reconnect env s) <= maxReconnectAttempts env.
Proof.
  intros H. unfold reconnect.
  destruct (Nat.leb_spec (maxReconnectAttempts env) (reconnectAttempts s)); simpl; lia.
Qed.

Lemma connect_fields (s : Service) :
  reconnectAttempts (connect s) = reconnectAttempts s
  /\ isManualDisconnect (connect s) = isManualDisconnect s
  /\ heartbeatTimer (connect s) = heartbeatTimer s
  /\ timers (connect s) = timers s
  /\ sent (connect s) = sent s.
Proof. unfold connect. destruct (isConnected s); simpl; auto. Qed.

Lemma run_task_fields (t : TimerTask) (s : Service) :
  reconnectAttempts (run_task t s) = reconnectAttempts s
  /\ isManualDisconnect (run_task t s) = isManualDisconnect s
  /\ heartbeatTimer (run_task t s) = heartbeatTimer s
  /\ timers (run_task t s) = timers s
  /\ sent (run_task t s) = sent s.
Proof.
  destruct t; simpl; [destruct (negb (isManualDisconnect s))|];
    try apply connect_fields; auto.
Qed.

Lemma step_attempts_bound (s : Service) (ev : Event) :
  reconnectAttempts s <= maxReconnectAttempts env ->
  reconnectAttempts (step env s ev) <= maxReconnectAttempts env.
Proof.
  intros H. destruct ev as [| | |i]; simpl.
  - lia.
  - unfold onClose. simpl. destruct (negb (isManualDisconnect s)); simpl; [|exact H].
    now apply reconnect_attempts_bound.
  - exact H.
  - destruct (nth_error (timers s) i) as [[d task]|]; [|exact H].
    now destruct (run_task_fields task (with_timers (drop_nth i (timers s)) s)) as (-> & _).
Qed.

Lemma send_fields (m : WebSocketMessage) (s : Service) :
  reconnectAttempts (send m s) = reconnectAttempts s
  /\ heartbeatTimer (send m s) = heartbeatTimer s
  /\ isConnected (send m s) = isConnected s.
Proof. unfold send. destruct (isConnected s) eqn:E; simpl; auto. Qed.

Lemma act_attempts_bound (s : Service) (a : Action) :
  reconnectAttempts s <= maxReconnectAttempts env ->
  reconnectAttempts (act env s a) <= maxReconnectAttempts env.
Proof.
  intros H. destruct a; simpl.
  - now apply step_attempts_bound.
  - unfold heartbeatTick. destruct (heartbeatTimer s); [|exact H].
    destruct (isConnected s); [|exact H].
    unfold sendPing. now destruct (send_fields
      {| type := "PING"; data := Js.JObj [("timestamp", Js.JStr now)]; timestamp := None |} s)
      as (-> & _).
  - now destruct (connect_fields s) as (-> & _).
  - unfold disconnect. simpl. destruct (socket s); simpl; exact H.
  - unfold reconnectManually. simpl. lia.
  - now destruct (send_fields m s) as (-> & _).
  - unfold sendPing. now destruct (send_fields
      {| type := "PING"; data := Js.JObj [("timestamp", Js.JStr now)]; timestamp := None |} s)
      as (-> & _).
  - simpl. lia.
Qed.

(** No action ever sets the heartbeat interval again, and without an
    interval only an explicit send puts a message on the socket. *)
Lemma act_heartbeat_off (s : Service) (a : Action) :
  heartbeatTimer s = false ->
  heartbeatTimer (act env s a) = false
  /\ (explicit_send a = false -> sent (act env s a) = sent s).
Proof.
  intros H. destruct a; simpl.
  - destruct ev as [| | |i]; simpl.
    + auto.
    + unfold onClose. simpl. destruct (negb (isManualDisconnect s)); simpl; auto.
      unfold reconnect. simpl.
      destruct (maxReconnectAttempts env <=? reconnectAttempts s)%nat; simpl; auto.
    + auto.
    + destruct (nth_error (timers s) i) as [[d task]|]; [|auto].
      destruct (run_task_fields task (with_timers (drop_nth i (timers s)) s))
        as (_ & _ & -> & _ & ->).
      auto.
  - unfold heartbeatTick. rewrite H. auto.
  - destruct (connect_fields s) as (_ & _ & -> & _ & ->). auto.
  - unfold disconnect. simpl. destruct (socket s); simpl; auto.
  - unfold reconnectManually, disconnect. simpl. destruct (socket s); simpl; auto.
  - destruct (send_fields m s) as (_ & -> & _). split; [exact H|discriminate].
  - unfold sendPing. destruct (send_fields
      {| type := "PING"; data := Js.JObj [("timestamp", Js.JStr now)]; timestamp := None |} s)
      as (_ & -> & _). split; [exact H|discriminate].
  - auto.
Qed.

Lemma acts_heartbeat_off (l : list Action) (s : Service) :
  heartbeatTimer s = false ->
  heartbeatTimer (acts env l s) = false
  /\ (forallb (fun a => negb (explicit_send a)) l = true ->
      sent (acts env l s) = sent s).
Proof.
  revert s. induction l as [|a l IH]; intros s H; simpl; [auto|].
  destruct (act_heartbeat_off s a H) as (Hoff & Hsent).
  destruct (IH (act env s a) Hoff) as (Hoff' & Hsent').
  split; [exact Hoff'|].
  intros Hall. apply andb_prop in Hall as [Ha Hl].
  rewrite Hsent' by exact Hl. apply Hsent.
  now destruct (explicit_send a).
Qed.

Lemma disconnect_heartbeat_off (s : Service) :
  heartbeatTimer (disconnect s) = false /\ sent (disconnect s) = sent s.
Proof. unfold disconnect. simpl. destruct (socket s); simpl; auto. Qed.

End ServiceFacts.

(** X1: in every state the service reaches from a state whose counter of
    reconnection attempts is within [maxReconnectAttempts], through
    socket and timer events, heartbeat ticks and calls of its API in any
    order, the counter is within [maxReconnectAttempts]. *)
Theorem reconnectAttempts_never_exceed_max
        (env : WebsocketService.Environment) (l : list WebsocketService.Action)
        (s : WebsocketService.Service) :
  WebsocketService.reconnectAttempts s <= WebsocketService.maxReconnectAttempts env ->
  WebsocketService.reconnectAttempts (WebsocketService.acts env l s)
  <= WebsocketService.maxReconnectAttempts env.
Proof.
  unfold WebsocketService.acts. revert s.
  induction l as [|a l IH]; intros s H; simpl; [exact H|].
  apply IH, act_attempts_bound, H.
Qed.

Lemma reconnectAttempts_never_exceed_max_witness :
  WebsocketService.reconnectAttempts
    (WebsocketService.acts WebsocketService.environment_prod
       [WebsocketService.Happens WebsocketService.SocketClosed;
        WebsocketService.CallReconnectManually;
        WebsocketService.Happens (WebsocketService.TimerFired 1);
        WebsocketService.Happens WebsocketService.SocketClosed]
       WebsocketService.create)
  <= 10.
Proof.
  apply (reconnectAttempts_never_exceed_max WebsocketService.environment_prod).
  simpl. lia.
Defined.

(** X2: once [disconnect] has been called the heartbeat interval is
    never set again, whatever happens afterwards (a manual reconnect and
    a successful open included): no later tick sends a ping, so the
    messages sent change only through explicit calls of [send] or
    [sendPing]. *)
Theorem heartbeat_never_resumes
        (env : WebsocketService.Environment) (l : list WebsocketService.Action)
        (s : WebsocketService.Service) :
  WebsocketService.heartbeatTimer
    (WebsocketService.acts env l (WebsocketService.disconnect s)) = false
  /\ (forallb (fun a => negb (WebsocketService.explicit_send a)) l = true ->
      WebsocketService.sent
        (WebsocketService.acts env l (WebsocketService.disconnect s))
      = WebsocketService.sent s).
Proof.
  destruct (disconnect_heartbeat_off s) as (Hoff & Hsent).
  destruct (acts_heartbeat_off env l (WebsocketService.disconnect s) Hoff)
    as (Hoff' & Hsent').
  split; [exact Hoff'|]. intros Hall. now rewrite Hsent'.
Qed.

Lemma heartbeat_never_resumes_witness :
  let s := WebsocketService.acts WebsocketService.environment_prod
             [WebsocketService.CallReconnectManually;
              WebsocketService.Happens (WebsocketService.TimerFired 0);
              WebsocketService.Happens WebsocketService.SocketOpened;
              WebsocketService.Tick "2025-01-17T11:00:30.000Z"]
             (WebsocketService.disconnect WebsocketService.connected) in
  WebsocketService.isConnected s = true
  /\ WebsocketService.sent s = [].
Proof.
  intros s. split; [reflexivity|].
  apply (proj2 (heartbeat_never_resumes WebsocketService.environment_prod
                  [WebsocketService.CallReconnectManually;
                   WebsocketService.Happens (WebsocketService.TimerFired 0);
                   WebsocketService.Happens WebsocketService.SocketOpened;
                   WebsocketService.Tick "2025-01-17T11:00:30.000Z"]
                  WebsocketService.connected)).
  reflexivity.
Defined.

Section ManualDisconnectFacts.
Import WebsocketService.

Variable env : Environment.

Lemma forallb_drop_nth {A} (f : A -> bool) (i : nat) (l : list A) :
  forallb f l = true -> forallb f (drop_nth i l) = true.
Proof.
  revert i. induction l as [|x l IH]; intros [|i]; simpl; auto.
  - intros H. now apply andb_prop in H.
  - intros H. apply andb_prop in H as [Hx Hl]. now rewrite Hx, IH.
Qed.

Lemma forallb_nth_error {A} (f : A -> bool) (i : nat) (l : list A) (x : A) :
  forallb f l = true -> nth_error l i = Some x -> f x = true.
Proof.
  intros H Hn. rewrite forallb_forall in H. apply H.
  now apply nth_error_In in Hn.
Qed.

Lemma length_drop_nth_le {A} (i : nat) (l : list A) :
  length (drop_nth i l) <= length l.
Proof. revert i. induction l as [|x l IH]; intros [|i]; simpl; auto. specialize (IH i). lia. Qed.

Lemma step_parked (s : Service) (ev : Event) :
  failure_event ev = true -> parked s ->
  parked (step env s ev)
  /\ opened (step env s ev) = opened s
  /\ reconnectAttempts (step env s ev) = reconnectAttempts s
  /\ length (timers (step env s ev)) <= length (timers s)
  /\ Forall (fun st => st = DISCONNECTED \/ st = ERROR)
            (skipn (length (statusLog s)) (statusLog (step env s ev))).
Proof.
  intros Hev (Hm & Hs & Ht). destruct ev as [| | |i]; try discriminate Hev; simpl.
  - unfold onClose. simpl. rewrite Hm. simpl.
    repeat split; auto.
    rewrite skipn_app, skipn_all, Nat.sub_diag. simpl. auto.
  - repeat split; auto.
    rewrite skipn_app, skipn_all, Nat.sub_diag. simpl. auto.
  - destruct (nth_error (timers s) i) as [[d task]|] eqn:Hn.
    + pose proof (forallb_nth_error _ i _ _ Ht Hn) as Htask.
      destruct task; [|discriminate Htask]. simpl. rewrite Hm. simpl.
      repeat split; auto.
      * now apply forallb_drop_nth.
      * apply length_drop_nth_le.
      * rewrite skipn_all. constructor.
    + repeat split; auto. rewrite skipn_all. constructor.
Qed.

Lemma Forall_skipn_trans {A} (P : A -> Prop) (l1 l2 l3 : list A) :
  length l1 <= length l2 ->
  (exists m, l2 = l1 ++ m /\ Forall P m) ->
  (exists m, l3 = l2 ++ m /\ Forall P m) ->
  exists m, l3 = l1 ++ m /\ Forall P m.
Proof.
  intros _ (m1 & -> & H1) (m2 & -> & H2).
  exists (m1 ++ m2). split; [now rewrite app_assoc|].
  apply Forall_app. now split.
Qed.

Lemma statusLog_grows (s : Service) (ev : Event) :
  exists m, statusLog (step env s ev) = statusLog s ++ m.
Proof.
  destruct ev as [| | |i]; simpl.
  - now exists [CONNECTED].
  - unfold onClose. simpl. destruct (negb (isManualDisconnect s)); simpl.
    + unfold reconnect. simpl.
      destruct (maxReconnectAttempts env <=? reconnectAttempts s)%nat; simpl;
        rewrite <- app_assoc; eexists; reflexivity.
    + eexists; reflexivity.
  - eexists; reflexivity.
  - destruct (nth_error (timers s) i) as [[d task]|].
    + destruct task; simpl; [destruct (negb (isManualDisconnect s))|];
        unfold connect; simpl; try destruct (isConnected _); simpl;
          try (exists []; now rewrite app_nil_r); eexists; reflexivity.
    + exists []. now rewrite app_nil_r.
Qed.

Lemma run_parked (evs : list Event) (s : Service) :
  forallb failure_event evs = true -> parked s ->
  let s' := run env evs s in
  parked s'
  /\ opened s' = opened s
  /\ reconnectAttempts s' = reconnectAttempts s
  /\ length (timers s') <= length (timers s)
  /\ exists m, statusLog s' = statusLog s ++ m
               /\ Forall (fun st => st = DISCONNECTED \/ st = ERROR) m.
Proof.
  revert s. induction evs as [|ev evs IH]; simpl; intros s Hall Hp.
  - repeat split; try apply Hp; auto. exists []. now rewrite app_nil_r.
  - apply andb_prop in Hall as [Hev Hall].
    destruct (step_parked s ev Hev Hp) as (Hp1 & Ho1 & Ha1 & Ht1 & Hl1).
    destruct (IH (step env s ev) Hall Hp1) as (Hp2 & Ho2 & Ha2 & Ht2 & m2 & Hm2 & HF2).
    unfold run in *.
    repeat split; try apply Hp2; try congruence; try lia.
    destruct (statusLog_grows s ev) as (m1 & Hm1).
    rewrite Hm1, skipn_app, skipn_all, Nat.sub_diag in Hl1. simpl in Hl1.
    exists (m1 ++ m2). split.
    + now rewrite Hm2, Hm1, app_assoc.
    + apply Forall_app. now split.
Qed.

Lemma disconnect_parked (s : Service) :
  forallb (fun t => negb (manual_task t)) (timers s) = true ->
  parked (disconnect s)
  /\ opened (disconnect s) = opened s
  /\ reconnectAttempts (disconnect s) = reconnectAttempts s
  /\ timers (disconnect s) = timers s.
Proof.
  intros H. unfold parked, disconnect. simpl.
  destruct (socket s) eqn:E; simpl; repeat split; auto.
Qed.

Lemma connect_idempotent (s : Service) : connect (connect s) = connect s.
Proof.
  destruct (isConnected s) eqn:E; unfold connect; rewrite E.
  - now rewrite E.
  - reflexivity.
Qed.

Lemma nth_error_snoc {A} (l : list A) (x : A) :
  nth_error (l ++ [x]) (length l) = Some x.
Proof. induction l; simpl; auto. Qed.

Lemma drop_nth_snoc {A} (l : list A) (x : A) :
  drop_nth (length l) (l ++ [x]) = l.
Proof. induction l as [|y l IH]; simpl; [reflexivity|now rewrite IH]. Qed.

Lemma nth_error_middle {A} (l r : list A) (x : A) :
  nth_error (l ++ x :: r) (length l) = Some x.
Proof. induction l; simpl; auto. Qed.

Lemma drop_nth_middle {A} (l r : list A) (x : A) :
  drop_nth (length l) (l ++ x :: r) = l ++ r.
Proof. induction l as [|y l IH]; simpl; [reflexivity|now rewrite IH]. Qed.

Lemma run_cons (ev : Event) (evs : list Event) (s : Service) :
  run env (ev :: evs) s = run env evs (step env s ev).
Proof. reflexivity. Qed.

(** The service right after [reconnectManually]. *)
Lemma reconnectManually_state (s : Service) :
  reconnectManually s
  = {| socket := None; reconnectAttempts := 0; isManualDisconnect := false;
       heartbeatTimer := false;
       statusLog := statusLog s ++ [DISCONNECTED];
       timers := timers s ++ [(1000%Q, ManualReconnectTask)];
       opened := opened s; sent := sent s |}.
Proof.
  unfold reconnectManually, disconnect. cbn.
  destruct (socket s) eqn:E;
    unfold with_timers, with_attempts, with_manual, with_status, with_socket,
      stopHeartbeat; cbn; rewrite ?E; reflexivity.
Qed.

(** A timer whose callback is allowed to connect opens a socket when the
    service holds none, and finds nothing to do when it holds one. *)
Lemma timer_connects (s : Service)
      (l r : list (Q * TimerTask)) (d : Q) (task : TimerTask) :
  timers s = l ++ (d, task) :: r ->
  isManualDisconnect s = false ->
  step env s (TimerFired (length l))
  = if isConnected s then with_timers (l ++ r) s
    else {| socket := Some {| closed := false |};
            reconnectAttempts := reconnectAttempts s;
            isManualDisconnect := false; heartbeatTimer := heartbeatTimer s;
            statusLog := statusLog s ++ [CONNECTING];
            timers := l ++ r; opened := S (opened s); sent := sent s |}.
Proof.
  intros Ht Hm. unfold step. rewrite Ht, nth_error_middle, drop_nth_middle.
  assert (Hc : run_task task (with_timers (l ++ r) s) = connect (with_timers (l ++ r) s)).
  { destruct task; simpl; [now rewrite Hm|reflexivity]. }
  rewrite Hc. unfold connect.
  replace (isConnected (with_timers (l ++ r) s)) with (isConnected s) by reflexivity.
  destruct (isConnected s); [reflexivity|]. simpl. now rewrite Hm.
Qed.

(** A close event that the service takes for an unexpected one starts
    the first attempt of a reconnection. *)
Lemma close_starts_reconnection (s : Service) :
  isManualDisconnect s = false ->
  reconnectAttempts s = 0 ->
  1 <= maxReconnectAttempts env ->
  step env s SocketClosed
  = {| socket := None; reconnectAttempts := 1; isManualDisconnect := false;
       heartbeatTimer := heartbeatTimer s;
       statusLog := statusLog s ++ [DISCONNECTED; RECONNECTING];
       timers := timers s ++ [(backoff env 1, ReconnectTask)];
       opened := opened s; sent := sent s |}.
Proof.
  intros Hm Ha Hmax. unfold step, onClose. simpl. rewrite Hm. simpl.
  unfold reconnect. simpl. rewrite Ha.
  destruct (Nat.leb_spec (maxReconnectAttempts env) 0); [lia|].
  unfold with_timers, with_status, with_attempts, with_socket. cbn.
  rewrite Hm, <- app_assoc. reflexivity.
Qed.

End ManualDisconnectFacts.

(** X3: after [disconnect], as long as no timer of a manual reconnect is
    pending and neither a successful open nor a call of the API
    intervenes, nothing reconnects: close events, socket errors and left
    over reconnect timers open no socket, arm no timer and leave the
    counter of attempts alone; the only statuses emitted are
    DISCONNECTED and ERROR. *)
Theorem disconnect_stays_disconnected
        (env : WebsocketService.Environment) (evs : list WebsocketService.Event)
        (s : WebsocketService.Service) :
  forallb (fun t => negb (WebsocketService.manual_task t)) (WebsocketService.timers s)
  = true ->
  forallb WebsocketService.failure_event evs = true ->
  let s' := WebsocketService.run env evs (WebsocketService.disconnect s) in
  WebsocketService.socket s' = None
  /\ WebsocketService.isManualDisconnect s' = true
  /\ WebsocketService.opened s' = WebsocketService.opened s
  /\ WebsocketService.reconnectAttempts s' = WebsocketService.reconnectAttempts s
  /\ length (WebsocketService.timers s') <= length (WebsocketService.timers s)
  /\ exists m,
       WebsocketService.statusLog s'
       = WebsocketService.statusLog (WebsocketService.disconnect s) ++ m
       /\ Forall (fun st => st = WebsocketService.DISCONNECTED
                            \/ st = WebsocketService.ERROR) m.
Proof.
  intros Ht Hall s'.
  destruct (disconnect_parked s Ht) as (Hp & Ho & Ha & Htm).
  destruct (run_parked env evs (WebsocketService.disconnect s) Hall Hp)
    as ((Hm & Hs & _) & Ho' & Ha' & Ht' & Hlog).
  fold s' in Hm, Hs, Ho', Ha', Ht', Hlog.
  split; [exact Hs|]. split; [exact Hm|].
  split; [congruence|]. split; [congruence|].
  split; [now rewrite <- Htm|exact Hlog].
Qed.

Lemma disconnect_stays_disconnected_witness :
  let s := WebsocketService.run WebsocketService.environment_prod
             [WebsocketService.SocketClosed] WebsocketService.connected in
  let s' := WebsocketService.run WebsocketService.environment_prod
              [WebsocketService.TimerFired 0; WebsocketService.SocketClosed]
              (WebsocketService.disconnect s) in
  length (WebsocketService.timers s) = 1
  /\ WebsocketService.socket s' = None
  /\ WebsocketService.opened s' = 1.
Proof.
  intros s s'. split; [reflexivity|].
  destruct (disconnect_stays_disconnected WebsocketService.environment_prod
              [WebsocketService.TimerFired 0; WebsocketService.SocketClosed] s)
    as (Hs & _ & Ho & _).
  - reflexivity.
  - reflexivity.
  - split; [exact Hs|exact Ho].
Defined.

(** X4: [reconnectManually] leaves the service without a socket, with
    the counter of attempts at 0, the manual flag cleared and one more
    timer.  When that timer fires before anything else, one socket is
    opened.  The close event of the socket that [disconnect] closed
    arrives with the flag cleared already, so it is taken for an
    unexpected close and starts a reconnection of its own (given
    [maxReconnectAttempts >= 1]): when it arrives before the timer, the
    counter is 1 and a second timer is armed, and once both timers have
    fired one socket has been opened; when it arrives after the timer, it
    drops the socket just opened, and the reconnection opens a second
    one. *)
Theorem reconnectManually_and_old_close
        (env : WebsocketService.Environment) (s : WebsocketService.Service) :
  let i := length (WebsocketService.timers s) in
  let s1 := WebsocketService.reconnectManually s in
  let after log attempts sockets :=
    {| WebsocketService.socket := Some {| WebsocketService.closed := false |};
       WebsocketService.reconnectAttempts := attempts;
       WebsocketService.isManualDisconnect := false;
       WebsocketService.heartbeatTimer := false;
       WebsocketService.statusLog := WebsocketService.statusLog s ++ log;
       WebsocketService.timers := WebsocketService.timers s;
       WebsocketService.opened := sockets + WebsocketService.opened s;
       WebsocketService.sent := WebsocketService.sent s |} in
  WebsocketService.socket s1 = None
  /\ WebsocketService.reconnectAttempts s1 = 0
  /\ WebsocketService.isManualDisconnect s1 = false
  /\ WebsocketService.timers s1
     = WebsocketService.timers s ++ [(1000%Q, WebsocketService.ManualReconnectTask)]
  /\ WebsocketService.run env [WebsocketService.TimerFired i] s1
     = after [WebsocketService.DISCONNECTED; WebsocketService.CONNECTING] 0 1
  /\ (1 <= WebsocketService.maxReconnectAttempts env ->
      WebsocketService.timers
        (WebsocketService.run env [WebsocketService.SocketClosed] s1)
      = WebsocketService.timers s
          ++ [(1000%Q, WebsocketService.ManualReconnectTask);
              (WebsocketService.backoff env 1, WebsocketService.ReconnectTask)]
      /\ WebsocketService.run env
           [WebsocketService.SocketClosed; WebsocketService.TimerFired i;
            WebsocketService.TimerFired i] s1
         = after [WebsocketService.DISCONNECTED; WebsocketService.DISCONNECTED;
                  WebsocketService.RECONNECTING; WebsocketService.CONNECTING] 1 1
      /\ WebsocketService.run env
           [WebsocketService.TimerFired i; WebsocketService.SocketClosed;
            WebsocketService.TimerFired i] s1
         = after [WebsocketService.DISCONNECTED; WebsocketService.CONNECTING;
                  WebsocketService.DISCONNECTED; WebsocketService.RECONNECTING;
                  WebsocketService.CONNECTING] 1 2).
Proof.
  intros i s1 after. subst s1 i.
  rewrite (reconnectManually_state s).
  split; [reflexivity|]. split; [reflexivity|]. split; [reflexivity|].
  split; [reflexivity|].
  assert (Hfirst :
    WebsocketService.step env
      {| WebsocketService.socket := None;
         WebsocketService.reconnectAttempts := 0;
         WebsocketService.isManualDisconnect := false;
         WebsocketService.heartbeatTimer := false;
         WebsocketService.statusLog :=
           WebsocketService.statusLog s ++ [WebsocketService.DISCONNECTED];
         WebsocketService.timers :=
           WebsocketService.timers s ++ [(1000%Q, WebsocketService.ManualReconnectTask)];
         WebsocketService.opened := WebsocketService.opened s;
         WebsocketService.sent := WebsocketService.sent s |}
      (WebsocketService.TimerFired (length (WebsocketService.timers s)))
    = after [WebsocketService.DISCONNECTED; WebsocketService.CONNECTING] 0 1).
  { rewrite (timer_connects env _ (WebsocketService.timers s) []
               1000%Q WebsocketService.ManualReconnectTask) by reflexivity.
    unfold after. cbn. now rewrite app_nil_r, <- app_assoc. }
  split; [rewrite run_cons, Hfirst; reflexivity|].
  intros Hmax. split; [|split].
  - rewrite run_cons, close_starts_reconnection by (reflexivity || exact Hmax).
    cbn. now rewrite <- app_assoc.
  - rewrite run_cons, close_starts_reconnection by (reflexivity || exact Hmax).
    cbn [WebsocketService.statusLog WebsocketService.timers WebsocketService.opened
         WebsocketService.sent WebsocketService.heartbeatTimer].
    rewrite run_cons.
    rewrite (timer_connects env _ (WebsocketService.timers s)
               [(WebsocketService.backoff env 1, WebsocketService.ReconnectTask)]
               1000%Q WebsocketService.ManualReconnectTask)
      by (cbn; now rewrite <- ?app_assoc).
    cbn [WebsocketService.isConnected WebsocketService.socket
         WebsocketService.statusLog WebsocketService.timers WebsocketService.opened
         WebsocketService.sent WebsocketService.heartbeatTimer
         WebsocketService.reconnectAttempts].
    rewrite run_cons.
    rewrite (timer_connects env _ (WebsocketService.timers s) []
               (WebsocketService.backoff env 1) WebsocketService.ReconnectTask)
      by reflexivity.
    unfold after. cbn. now rewrite app_nil_r, <- !app_assoc.
  - rewrite run_cons, Hfirst. unfold after.
    rewrite run_cons, close_starts_reconnection by (reflexivity || exact Hmax).
    cbn [WebsocketService.statusLog WebsocketService.timers WebsocketService.opened
         WebsocketService.sent WebsocketService.heartbeatTimer].
    rewrite run_cons.
    rewrite (timer_connects env _ (WebsocketService.timers s) []
               (WebsocketService.backoff env 1) WebsocketService.ReconnectTask)
      by reflexivity.
    cbn. now rewrite app_nil_r, <- !app_assoc.
Qed.

Lemma reconnectManually_and_old_close_witness :
  let s1 := WebsocketService.reconnectManually WebsocketService.connected in
  WebsocketService.opened
    (WebsocketService.run WebsocketService.environment_prod
       [WebsocketService.SocketClosed; WebsocketService.TimerFired 0;
        WebsocketService.TimerFired 0] s1) = 2
  /\ WebsocketService.opened
       (WebsocketService.run WebsocketService.environment_prod
          [WebsocketService.TimerFired 0; WebsocketService.SocketClosed;
           WebsocketService.TimerFired 0] s1) = 3.
Proof.
  intros s1.
  destruct (reconnectManually_and_old_close WebsocketService.environment_prod
              WebsocketService.connected) as (_ & _ & _ & _ & _ & H).
  destruct H as (_ & Hbefore & Hafter); [simpl; lia|].
  split.
  - exact (f_equal WebsocketService.opened Hbefore).
  - exact (f_equal WebsocketService.opened Hafter).
Defined.

(** ** Filtered streams on a source that ends *)

Section StreamFacts.
Import WebsocketService.

Lemma accept_stopped {A} (log : list (Signal A)) (sg : Signal A) :
  existsb terminal log = true -> accept log sg = log.
Proof. unfold accept. now intros ->. Qed.

Lemma forward_stopped (ty : string) (source : list (Signal WebSocketMessage))
      (log : list (Signal Js.JsValue)) :
  existsb terminal log = true -> fold_left (forward ty) source log = log.
Proof.
  revert log. induction source as [|sg source IH]; intros log H; simpl; [reflexivity|].
  destruct sg as [m|e|]; simpl.
  - destruct (type m =? ty); [rewrite accept_stopped by exact H|]; now apply IH.
  - rewrite accept_stopped by exact H. now apply IH.
  - rewrite accept_stopped by exact H. now apply IH.
Qed.

Lemma existsb_terminal_snoc {A} (seen : list A) (sg : Signal A) :
  terminal sg = true -> existsb terminal (map next seen ++ [sg]) = true.
Proof.
  intros H. rewrite existsb_app. simpl. rewrite H.
  now rewrite orb_true_r.
Qed.

Lemma forward_source (ty : string) (source : list (Signal WebSocketMessage))
      (seen : list Js.JsValue) :
  fold_left (forward ty) source (map next seen)
  = map next (seen ++ map data (filter (fun m => type m =? ty) (messages_before source)))
      ++ first_terminal source.
Proof.
  revert seen. induction source as [|sg source IH]; intros seen; simpl.
  - now rewrite !app_nil_r.
  - destruct sg as [m|e|]; simpl.
    + destruct (type m =? ty); simpl.
      * rewrite accept_next by apply no_terminal_next.
        change [next (data m)] with (map (@next Js.JsValue) [data m]).
        rewrite <- map_app, IH, <- app_assoc. reflexivity.
      * apply IH.
    + rewrite accept_next by apply no_terminal_next.
      rewrite forward_stopped by now apply existsb_terminal_snoc.
      now rewrite app_nil_r.
    + rewrite accept_next by apply no_terminal_next.
      rewrite forward_stopped by now apply existsb_terminal_snoc.
      now rewrite app_nil_r.
Qed.

End StreamFacts.

(** X5: on every source, ended or not, [getMessagesByType ty] emits the
    payloads of the messages of type [ty] that arrive before the first
    [error] or [complete] of the source, in order, then passes that first
    terminal signal on, and emits nothing after it. *)
Theorem getMessagesByType_until_terminal
        (ty : string)
        (source : list (WebsocketService.Signal WebsocketService.WebSocketMessage)) :
  WebsocketService.getMessagesByType ty source
  = map WebsocketService.next
        (map WebsocketService.data
             (filter (fun m => WebsocketService.type m =? ty)
                     (WebsocketService.messages_before source)))
      ++ WebsocketService.first_terminal source.
Proof. apply (forward_source ty source []). Qed.

(** ** Notification ids *)

Section IdFacts.
Import Js NotificationService.

Lemma string_of_Z_inj (a b : Z) : string_of_Z a = string_of_Z b -> a = b.
Proof.
  unfold string_of_Z. intros H.
  apply DecimalZ.to_int_inj.
  assert (Hi : forall z, NilZero.int_of_string (NilZero.string_of_int (Z.to_int z))
                         = Some (Z.to_int z)).
  { intros z. apply NilZero.isi; destruct z; simpl; try discriminate;
      intros [= E]; now apply DecimalPos.Unsigned.to_uint_nonnil in E. }
  apply (f_equal NilZero.int_of_string) in H. rewrite !Hi in H. congruence.
Qed.

Lemma nth_id_inj (n m : nat) : nth_id n = nth_id m -> n = m.
Proof.
  unfold nth_id, string_of_nat. simpl. intros [= H].
  apply string_of_Z_inj in H. lia.
Qed.

Lemma show_ids (ty : NotificationType) (m : JsValue) (t : option string)
      (d : option Z) (svc : Notifier) :
  ids_in_step svc -> ids_in_step (show ty m t d svc).
Proof.
  unfold ids_in_step, show. cbn [emitted idCounter]. intros H.
  rewrite map_app, H, seq_S, map_app. reflexivity.
Qed.

Lemma showCustom_ids (c : CustomConfig) (svc : Notifier) :
  ids_in_step svc -> ids_in_step (showCustom c svc).
Proof.
  unfold ids_in_step, showCustom. cbn [emitted idCounter]. intros H.
  rewrite map_app, H, seq_S, map_app. reflexivity.
Qed.

Lemma perform_ids (svc : Notifier) (c : Call) :
  ids_in_step svc -> ids_in_step (perform svc c).
Proof.
  intros H. destruct c as [m t d|m t d|m t d|m t d|config|err];
    cbn [perform].
  - now apply show_ids.
  - now apply show_ids.
  - now apply show_ids.
  - now apply show_ids.
  - now apply showCustom_ids.
  - unfold showApiError. destruct (apiErrorMessage err); simpl; [|exact H].
    now apply show_ids.
Qed.

Lemma perform_count (svc : Notifier) (c : Call) :
  length (emitted svc) <= length (emitted (perform svc c)) <= S (length (emitted svc)).
Proof.
  destruct c; simpl; rewrite ?length_app; simpl; try lia.
  unfold showApiError. destruct (apiErrorMessage err); simpl;
    rewrite ?length_app; simpl; lia.
Qed.

Lemma NoDup_nth_ids (n : nat) : NoDup (map nth_id (seq 0 n)).
Proof.
  apply Finite.Injective_map_NoDup; [|apply seq_NoDup].
  intros a b. apply nth_id_inj.
Qed.

End IdFacts.

(** X6: whatever public methods of the notification service are called,
    in whatever order, starting from the fresh service, the notifications
    pushed so far all have different ids, the [n]-th one (from 0) has the
    id ['notification-n'], and the counter equals their number; there is
    at most one notification per call. *)
Theorem notification_ids_unique (calls : list NotificationService.Call) :
  let svc := fold_left NotificationService.perform calls NotificationService.fresh in
  NoDup (map NotificationService.id (NotificationService.emitted svc))
  /\ map NotificationService.id (NotificationService.emitted svc)
     = map NotificationService.nth_id
           (seq 0 (length (NotificationService.emitted svc)))
  /\ NotificationService.idCounter svc = length (NotificationService.emitted svc)
  /\ length (NotificationService.emitted svc) <= length calls.
Proof.
  intros svc.
  assert (Hinv : forall l s,
             NotificationService.ids_in_step s ->
             NotificationService.ids_in_step (fold_left NotificationService.perform l s)
             /\ length (NotificationService.emitted
                          (fold_left NotificationService.perform l s))
                <= length (NotificationService.emitted s) + length l).
  { induction l as [|c l IH]; intros s Hs; simpl; [split; [exact Hs|lia]|].
    destruct (IH (NotificationService.perform s c) (perform_ids s c Hs)) as (Hi & Hl).
    split; [exact Hi|]. pose proof (perform_count s c). lia. }
  destruct (Hinv calls NotificationService.fresh eq_refl) as (Hids & Hlen).
  fold svc in Hids, Hlen. unfold NotificationService.ids_in_step in Hids.
  assert (Hc : NotificationService.idCounter svc
               = length (NotificationService.emitted svc)).
  { apply (f_equal (@length string)) in Hids.
    rewrite !length_map, length_seq in Hids. congruence. }
  split; [rewrite Hids; apply NoDup_nth_ids|].
  split; [now rewrite <- Hc|]. split; [exact Hc|exact Hlen].
Qed.

(** ** Errors on their way from the interceptor to the toast *)

Section PipelineFacts.
Import Js Http.

Variable JSON_stringify : JsValue -> string.

Lemma showApiError_of_message (x : string) (svc : NotificationService.Notifier) :
  NotificationService.showApiError (JObj [("message", JStr x)]) svc
  = Normal (NotificationService.one_error_toast
              (JStr (if x =? "" then "An error occurred" else x)) svc).
Proof.
  unfold NotificationService.showApiError.
  rewrite apiErrorMessage_no_detail by reflexivity. simpl.
  now destruct (x =? "").
Qed.

Lemma intercept_rethrows_message (r : HttpErrorResponse)
      (svc : NotificationService.Notifier) :
  exists x, snd (ErrorInterceptor.intercept JSON_stringify r svc)
            = JObj [("message", JStr x)].
Proof.
  unfold ErrorInterceptor.intercept.
  destruct (ErrorInterceptor.errorMessage JSON_stringify r) as [m|[t]]; simpl;
    eexists; reflexivity.
Qed.

Lemma notify_count (r : HttpErrorResponse) (m : JsValue)
      (svc : NotificationService.Notifier) :
  exists toasts,
    NotificationService.emitted (ErrorInterceptor.notify r m svc)
    = NotificationService.emitted svc ++ toasts
    /\ length toasts = (if ErrorInterceptor.shows_toast (status r) then 1 else 0)
    /\ (ErrorInterceptor.toast_with_text (status r) = true ->
        map NotificationService.message toasts = [m]).
Proof.
  unfold ErrorInterceptor.notify, ErrorInterceptor.shows_toast,
    ErrorInterceptor.toast_with_text.
  destruct (status r >=? 500)%Z eqn:E500; destruct (status r =? 404)%Z eqn:E404;
    destruct (status r =? 403)%Z eqn:E403; destruct (status r =? 409)%Z eqn:E409;
    destruct (status r =? 400)%Z eqn:E400; simpl;
    repeat match goal with
           | H : (_ =? _)%Z = true |- _ => apply Z.eqb_eq in H
           end;
    try lia;
    try (exists []; rewrite app_nil_r; repeat split; discriminate);
    eexists; (split; [reflexivity|]); (split; [reflexivity|]);
    (discriminate || reflexivity).
Qed.

End PipelineFacts.

(** X7: behind the interceptor [showApiError] never throws and never
    shows an empty text: for every HTTP error response, whatever its
    body, calling it on what the interceptor rethrew emits exactly one
    error toast titled ['Error'] whose message is a non-empty string. *)
Theorem intercepted_error_always_shown
        (JSON_stringify : Js.JsValue -> string) (r : Http.HttpErrorResponse)
        (svc : NotificationService.Notifier) :
  exists text,
    text <> ""
    /\ ErrorInterceptor.handled_by_component JSON_stringify r svc
       = Js.Normal
           (NotificationService.one_error_toast (Js.JStr text)
              (fst (ErrorInterceptor.intercept JSON_stringify r svc))).
Proof.
  unfold ErrorInterceptor.handled_by_component.
  destruct (intercept_rethrows_message JSON_stringify r svc) as [x Hx].
  destruct (ErrorInterceptor.intercept JSON_stringify r svc) as [svc' thrown].
  simpl in *. subst thrown. rewrite showApiError_of_message.
  destruct (String.eqb_spec x "") as [->|Hne].
  - exists "An error occurred". split; [discriminate|reflexivity].
  - exists x. split; [exact Hne|reflexivity].
Qed.

(** X8: a failed request whose component calls [showApiError] shows two
    toasts when the status is 500 or more, 400, 403, 404 or 409 and the
    interceptor could compute its text, and one toast otherwise; for 500
    or more, 400 and 409 with a non-empty text both toasts carry that
    same text. *)
Theorem failed_request_toasts
        (JSON_stringify : Js.JsValue -> string) (r : Http.HttpErrorResponse)
        (svc : NotificationService.Notifier) :
  exists svc' toasts,
    ErrorInterceptor.handled_by_component JSON_stringify r svc = Js.Normal svc'
    /\ NotificationService.emitted svc' = NotificationService.emitted svc ++ toasts
    /\ length toasts
       = match ErrorInterceptor.errorMessage JSON_stringify r with
         | Js.Normal _ =>
             if ErrorInterceptor.shows_toast (Http.status r) then 2 else 1
         | Js.Thrown _ => 1
         end
    /\ (forall d,
          ErrorInterceptor.errorMessage JSON_stringify r = Js.Normal (Js.JStr d) ->
          d <> "" ->
          ErrorInterceptor.toast_with_text (Http.status r) = true ->
          map NotificationService.message toasts = [Js.JStr d; Js.JStr d]).
Proof.
  unfold ErrorInterceptor.handled_by_component, ErrorInterceptor.intercept.
  destruct (ErrorInterceptor.errorMessage JSON_stringify r) as [m|[t]] eqn:Em.
  - destruct (notify_count r m svc) as (ts & He & Hl & Ht).
    unfold Js.new_Error. rewrite showApiError_of_message.
    eexists. eexists. split; [reflexivity|].
    split.
    { unfold NotificationService.one_error_toast. simpl.
      rewrite He, <- app_assoc. reflexivity. }
    split.
    + rewrite length_app, Hl. simpl.
      destruct (ErrorInterceptor.shows_toast (Http.status r)); reflexivity.
    + intros d [= ->] Hne Htext. rewrite map_app, (Ht Htext). simpl.
      now destruct (String.eqb_spec d "").
  - simpl. rewrite showApiError_of_message.
    eexists. eexists. split; [reflexivity|].
    split; [reflexivity|]. split; [reflexivity|]. intros d H. discriminate H.
Qed.

Lemma failed_request_toasts_witness :
  exists svc',
    ErrorInterceptor.handled_by_component (fun _ => "") conflict_response
      NotificationService.fresh = Js.Normal svc'
    /\ map NotificationService.message (NotificationService.emitted svc')
       = [Js.JStr "Device with this IP already exists";
          Js.JStr "Device with this IP already exists"].
Proof.
  destruct (failed_request_toasts (fun _ => "") conflict_response
              NotificationService.fresh) as (svc' & toasts & Hrun & He & _ & Hdup).
  exists svc'. split; [exact Hrun|].
  rewrite He. simpl.
  apply (Hdup "Device with this IP already exists"); [reflexivity|discriminate|reflexivity].
Defined.

(** ** Paging through the events *)

Section EventsPagingFacts.
Import Paging EventsComponent.

Lemma ceil_div_mono (a a' b : Z) :
  (0 < b)%Z -> (a <= a')%Z -> (ceil_div a b <= ceil_div a' b)%Z.
Proof.
  intros Hb Ha. unfold ceil_div.
  assert ((- a') / b <= (- a) / b)%Z by (apply Z.div_le_mono; lia). lia.
Qed.

Lemma ceil_div_one (a b : Z) : (0 < a <= b)%Z -> ceil_div a b = 1%Z.
Proof.
  intros H. pose proof (ceil_div_spec a b ltac:(lia)). nia.
Qed.

Lemma totalPages_mono (c c' : State) :
  pageSize c' = pageSize c -> (0 < pageSize c)%Z ->
  (0 <= totalEvents c <= totalEvents c')%Z ->
  (totalPages c <= totalPages c')%Z.
Proof.
  intros Hp Hps Ht. unfold totalPages. rewrite Hp.
  destruct (Z.eqb_spec (totalEvents c) 0) as [E|E];
    destruct (Z.eqb_spec (totalEvents c') 0) as [E'|E']; try lia.
  pose proof (ceil_div_mono (totalEvents c) (totalEvents c') (pageSize c) Hps
                ltac:(lia)). lia.
Qed.

Lemma totalPages_single (c : State) :
  (0 < pageSize c)%Z -> (0 <= totalEvents c <= pageSize c)%Z -> totalPages c = 1%Z.
Proof.
  intros Hp Ht. unfold totalPages.
  destruct (Z.eqb_spec (totalEvents c) 0) as [E|E]; [reflexivity|].
  rewrite ceil_div_one by lia. reflexivity.
Qed.

Lemma act_page_in_range (c : State) (a : Action) :
  page_in_range c -> page_in_range (act c a).
Proof.
  intros (Hp & Ht & Hc). pose proof (events_totalPages_pos c) as Hpos.
  destruct a as [| | |n|e|]; simpl.
  - unfold previousPage. destruct (Z.gtb_spec (currentPage c) 1);
      [|now repeat split].
    unfold page_in_range, totalPages in *. simpl. repeat split; lia.
  - unfold nextPage. destruct (Z.ltb_spec (currentPage c) (totalPages c));
      [|now repeat split].
    unfold page_in_range, totalPages in *. simpl. repeat split; lia.
  - unfold page_in_range, totalPages in *. simpl. repeat split; lia.
  - pose proof (totalPages_mono c (onEventsLoaded n c) eq_refl Hp) as Hm.
    simpl in Hm. specialize (Hm ltac:(lia)).
    unfold page_in_range. simpl. repeat split; lia.
  - unfold page_in_range, totalPages in *. simpl. repeat split; lia.
  - unfold page_in_range, totalPages in *. simpl. repeat split; lia.
Qed.

Lemma act_first_page (c : State) (a : Action) :
  (0 < pageSize c)%Z -> (0 <= totalEvents c <= pageSize c)%Z -> currentPage c = 1%Z ->
  within_page_size (pageSize c) a = true ->
  pageSize (act c a) = pageSize c
  /\ (0 <= totalEvents (act c a) <= pageSize c)%Z
  /\ currentPage (act c a) = 1%Z.
Proof.
  intros Hp Ht Hc Ha. pose proof (totalPages_single c Hp Ht) as Hone.
  destruct a as [| | |n|e|]; simpl.
  - unfold previousPage. rewrite Hc. simpl. auto.
  - unfold nextPage. rewrite Hc, Hone. simpl. auto.
  - auto.
  - simpl in Ha. apply Z.leb_le in Ha. repeat split; try lia; assumption.
  - auto.
  - auto.
Qed.

End EventsPagingFacts.

(** X9: on the events page, as long as the page shown is between 1 and
    the number of pages, it stays there under every sequence of previous,
    next, filter changes, loaded answers, selection toggles and bulk
    acknowledgements; the total only grows, so the number of pages never
    shrinks under the page shown. *)
Theorem events_page_stays_in_range
        (c : EventsComponent.State) (l : list EventsComponent.Action) :
  EventsComponent.page_in_range c ->
  EventsComponent.page_in_range (fold_left EventsComponent.act l c).
Proof.
  revert c. induction l as [|a l IH]; intros c H; simpl; [exact H|].
  apply IH, act_page_in_range, H.
Qed.

Lemma events_page_stays_in_range_witness :
  let c := fold_left EventsComponent.act
             [EventsComponent.EventsLoaded 45; EventsComponent.NextPage;
              EventsComponent.NextPage; EventsComponent.NextPage;
              EventsComponent.NextPage]
             EventsComponent.initial in
  (1 <= EventsComponent.currentPage c <= EventsComponent.totalPages c)%Z.
Proof.
  apply (events_page_stays_in_range EventsComponent.initial).
  unfold EventsComponent.page_in_range.
  replace (EventsComponent.totalPages EventsComponent.initial) with 1%Z by reflexivity.
  simpl. lia.
Defined.

(** X10: the total of the events page is only ever raised to the length
    of an answer, so when no answer is longer than the page size the
    page count stays 1 and the page shown stays 1: from the initial
    state, [nextPage] never leaves the first page. *)
Theorem events_never_leave_first_page
        (c : EventsComponent.State) (l : list EventsComponent.Action) :
  (0 < EventsComponent.pageSize c)%Z ->
  (0 <= EventsComponent.totalEvents c <= EventsComponent.pageSize c)%Z ->
  EventsComponent.currentPage c = 1%Z ->
  forallb (EventsComponent.within_page_size (EventsComponent.pageSize c)) l = true ->
  let c' := fold_left EventsComponent.act l c in
  EventsComponent.currentPage c' = 1%Z
  /\ EventsComponent.totalPages c' = 1%Z
  /\ EventsComponent.nextPage c' = c'.
Proof.
  revert c. induction l as [|a l IH]; intros c Hp Ht Hc Hall; simpl.
  - pose proof (totalPages_single c Hp Ht) as Hone.
    split; [exact Hc|]. split; [exact Hone|].
    unfold EventsComponent.nextPage. rewrite Hc, Hone. reflexivity.
  - simpl in Hall. apply andb_prop in Hall as [Ha Hl].
    destruct (act_first_page c a Hp Ht Hc Ha) as (Hp' & Ht' & Hc').
    apply IH; rewrite ?Hp'; assumption.
Qed.

Lemma events_never_leave_first_page_witness :
  EventsComponent.currentPage
    (fold_left EventsComponent.act
       [EventsComponent.EventsLoaded 20; EventsComponent.NextPage;
        EventsComponent.EventsLoaded 20; EventsComponent.NextPage]
       EventsComponent.initial) = 1%Z.
Proof.
  apply (events_never_leave_first_page EventsComponent.initial
           [EventsComponent.EventsLoaded 20; EventsComponent.NextPage;
            EventsComponent.EventsLoaded 20; EventsComponent.NextPage]);
    simpl; try reflexivity; lia.
Defined.

(** ** Relative timestamps *)

Section TimestampFacts.
Import Timestamps.

Lemma minutes_to_hours (d : Z) : (d / 60000 / 60 = d / 3600000)%Z.
Proof. rewrite Z.div_div by lia. reflexivity. Qed.

Lemma minutes_to_days (d : Z) : (d / 60000 / 60 / 24 = d / 86400000)%Z.
Proof. rewrite !Z.div_div by lia. reflexivity. Qed.

Lemma div_bounds (d k lo hi : Z) :
  (0 < k)%Z -> (lo * k <= d < hi * k)%Z -> (lo <= d / k < hi)%Z.
Proof.
  intros Hk [Hlo Hhi]. split.
  - apply Z.div_le_lower_bound; lia.
  - apply Z.div_lt_upper_bound; lia.
Qed.

End TimestampFacts.

(** X11: [formatTimestamp] shows whole elapsed units: 'Just now' below
    one minute (a timestamp in the future included), the whole minutes
    (1 to 59) below one hour, the whole hours (1 to 23) below one day,
    and the whole days (1 or more) from then on; rounding down twice or
    three times in a row loses nothing. *)
Theorem formatTimestamp_whole_units (now_ms date_ms : Z) :
  let d := (now_ms - date_ms)%Z in
  ((d < 60000)%Z -> Timestamps.formatTimestamp now_ms date_ms = "Just now")
  /\ ((60000 <= d < 3600000)%Z ->
      Timestamps.formatTimestamp now_ms date_ms
      = (Js.string_of_Z (d / 60000) ++ "m ago")%string
      /\ (1 <= d / 60000 <= 59)%Z)
  /\ ((3600000 <= d < 86400000)%Z ->
      Timestamps.formatTimestamp now_ms date_ms
      = (Js.string_of_Z (d / 3600000) ++ "h ago")%string
      /\ (1 <= d / 3600000 <= 23)%Z)
  /\ ((86400000 <= d)%Z ->
      Timestamps.formatTimestamp now_ms date_ms
      = (Js.string_of_Z (d / 86400000) ++ "d ago")%string
      /\ (1 <= d / 86400000)%Z).
Proof.
  intros d. unfold Timestamps.formatTimestamp. fold d.
  rewrite minutes_to_days, minutes_to_hours.
  split; [|split; [|split]]; intros H.
  - pose proof (Z.div_lt_upper_bound d 60000 1 ltac:(lia) ltac:(lia)).
    destruct (Z.ltb_spec (d / 60000) 1); [reflexivity|lia].
  - pose proof (div_bounds d 60000 1 60 ltac:(lia) ltac:(lia)).
    destruct (Z.ltb_spec (d / 60000) 1); [lia|].
    destruct (Z.ltb_spec (d / 60000) 60); [split; [reflexivity|lia]|lia].
  - pose proof (div_bounds d 60000 60 1440 ltac:(lia) ltac:(lia)).
    pose proof (div_bounds d 3600000 1 24 ltac:(lia) ltac:(lia)).
    destruct (Z.ltb_spec (d / 60000) 1); [lia|].
    destruct (Z.ltb_spec (d / 60000) 60); [lia|].
    destruct (Z.ltb_spec (d / 3600000) 24); [split; [reflexivity|lia]|lia].
  - assert (60 <= d / 60000)%Z by (apply Z.div_le_lower_bound; lia).
    assert (24 <= d / 3600000)%Z by (apply Z.div_le_lower_bound; lia).
    assert (1 <= d / 86400000)%Z by (apply Z.div_le_lower_bound; lia).
    destruct (Z.ltb_spec (d / 60000) 1); [lia|].
    destruct (Z.ltb_spec (d / 60000) 60); [lia|].
    destruct (Z.ltb_spec (d / 3600000) 24); [lia|].
    split; [reflexivity|lia].
Qed.

Lemma formatTimestamp_whole_units_witness :
  Timestamps.formatTimestamp 1737111600000 1737111600000 = "Just now"
  /\ Timestamps.formatTimestamp 1737111600000 1737111300000 = "5m ago"
  /\ Timestamps.formatTimestamp 1737111600000 1737104400000 = "2h ago"
  /\ Timestamps.formatTimestamp 1737111600000 1736852400000 = "3d ago".
Proof.
  destruct (formatTimestamp_whole_units 1737111600000 1737111600000) as (H0 & _).
  destruct (formatTimestamp_whole_units 1737111600000 1737111300000) as (_ & H1 & _).
  destruct (formatTimestamp_whole_units 1737111600000 1737104400000) as (_ & _ & H2 & _).
  destruct (formatTimestamp_whole_units 1737111600000 1736852400000) as (_ & _ & _ & H3).
  split; [apply H0; lia|].
  split; [apply H1; lia|].
  split; [apply H2; lia|apply H3; lia].
Defined.

(** ** The window of page links on the devices page *)

Section WindowFacts.
Import Paging JsArray DevicesComponent.

Lemma map_seq_from (lo : Z) (a k : nat) :
  lo = (Z.of_nat a + 1)%Z ->
  map (fun i => (Z.of_nat i + 1)%Z) (seq a k)
  = map (fun i => (lo + Z.of_nat i)%Z) (seq 0 k).
Proof.
  revert lo a. induction k as [|k IH]; intros lo a Hlo; simpl; [reflexivity|].
  f_equal; [lia|].
  rewrite (IH (lo + 1)%Z (S a)) by lia.
  rewrite <- seq_shift, map_map.
  apply map_ext. intros i. lia.
Qed.

Lemma firstn_of_seq (n a len : nat) :
  firstn n (seq a len) = seq a (Nat.min n len).
Proof.
  revert a len. induction n as [|n IH]; intros a [|len]; simpl; auto.
  now rewrite IH.
Qed.

Lemma one_to_slice (T a b : Z) :
  (0 <= a <= b)%Z -> (b <= T)%Z ->
  slice a b (one_to T) = page_range (a + 1) b.
Proof.
  intros Hab HT. unfold slice, one_to, page_range.
  rewrite length_map, length_seq, Z2Nat.id by lia.
  destruct (Z.ltb_spec a 0); [lia|]. destruct (Z.ltb_spec b 0); [lia|].
  rewrite !Z.min_l by lia.
  rewrite skipn_map, firstn_map, skipn_seq, firstn_of_seq. simpl.
  rewrite Nat.min_l by lia.
  replace (b - (a + 1) + 1)%Z with (b - a)%Z by lia.
  apply map_seq_from. lia.
Qed.

Lemma In_page_range (lo hi p : Z) :
  In p (page_range lo hi) <-> (lo <= p <= hi)%Z.
Proof.
  unfold page_range. rewrite in_map_iff. split.
  - intros (i & <- & Hi). apply in_seq in Hi. lia.
  - intros H. exists (Z.to_nat (p - lo)). split; [lia|].
    apply in_seq. lia.
Qed.

Lemma length_page_range (lo hi : Z) :
  length (page_range lo hi) = Z.to_nat (hi - lo + 1).
Proof. unfold page_range. now rewrite length_map, length_seq. Qed.

End WindowFacts.

(** X12: once the pagination has been computed, and while the page shown
    is one of the pages, [visiblePages] is the run of consecutive pages
    from two before the page shown to two after it, cut at 1 and at the
    last page: it has at most five entries and the page shown is one of
    them. *)
Theorem visiblePages_window (c : DevicesComponent.State) :
  DevicesComponent.pages c = Paging.one_to (DevicesComponent.totalPages c) ->
  (1 <= DevicesComponent.currentPage c <= DevicesComponent.totalPages c)%Z ->
  DevicesComponent.visiblePages c
  = DevicesComponent.page_range
      (Z.max 1 (DevicesComponent.currentPage c - 2))
      (Z.min (DevicesComponent.totalPages c) (DevicesComponent.currentPage c + 2))
  /\ In (DevicesComponent.currentPage c) (DevicesComponent.visiblePages c)
  /\ length (DevicesComponent.visiblePages c) <= 5.
Proof.
  intros Hp Hc.
  assert (Hv : DevicesComponent.visiblePages c
               = DevicesComponent.page_range
                   (Z.max 1 (DevicesComponent.currentPage c - 2))
                   (Z.min (DevicesComponent.totalPages c)
                          (DevicesComponent.currentPage c + 2))).
  { unfold DevicesComponent.visiblePages. rewrite Hp.
    rewrite one_to_slice by lia. f_equal. lia. }
  split; [exact Hv|]. rewrite Hv. split.
  - apply In_page_range. lia.
  - rewrite length_page_range. lia.
Qed.

Lemma visiblePages_window_witness :
  DevicesComponent.visiblePages
    (DevicesComponent.calculatePagination
       {| DevicesComponent.currentPage := 4; DevicesComponent.pageSize := 20;
          DevicesComponent.totalDevices := 190; DevicesComponent.totalPages := 0;
          DevicesComponent.pages := [] |})
  = [2; 3; 4; 5; 6]%Z.
Proof.
  destruct (visiblePages_window
              (DevicesComponent.calculatePagination
                 {| DevicesComponent.currentPage := 4; DevicesComponent.pageSize := 20;
                    DevicesComponent.totalDevices := 190;
                    DevicesComponent.totalPages := 0;
                    DevicesComponent.pages := [] |})) as (Hv & _).
  - reflexivity.
  - simpl. unfold Paging.ceil_div. simpl. lia.
  - rewrite Hv. reflexivity.
Defined.

(** ** The device list: filter and pages *)

Section DeviceListFacts.
Import Paging DevicesComponent.

Variable toLowerCase : string -> string.

Lemma applyClientSideFilter_filtered (v : View) :
  filteredDevices (applyClientSideFilter toLowerCase v)
  = if negb (searchTerm v =? "")
    then filter (row_matches toLowerCase (toLowerCase (searchTerm v))) (devices v)
    else devices v.
Proof. reflexivity. Qed.

Lemma filter_length_le {A} (f : A -> bool) (l : list A) :
  length (filter f l) <= length l.
Proof. induction l as [|x l IH]; simpl; [lia|]. destruct (f x); simpl; lia. Qed.

End DeviceListFacts.

Section StatusUpdateFacts.
Import DevicesComponent.

Lemma set_status_ids (device_id status : string) (rows rows' : list Row) :
  set_status device_id status rows = Some rows' ->
  map row_id rows' = map row_id rows
  /\ exists before d after,
       rows = before ++ d :: after
       /\ row_id d = device_id
       /\ Forall (fun x => row_id x <> device_id) before
       /\ rows' = before
                    ++ {| row_id := row_id d; row_name := row_name d; row_ip := row_ip d;
                          row_mac := row_mac d; row_hostname := row_hostname d;
                          row_status := status |} :: after.
Proof.
  revert rows'. induction rows as [|d rows IH]; intros rows'; simpl; [discriminate|].
  destruct (String.eqb_spec (row_id d) device_id) as [E|E].
  - intros [= <-]. split; [reflexivity|].
    exists [], d, rows. repeat split; auto.
  - destruct (set_status device_id status rows) as [r|]; simpl; [|discriminate].
    intros [= <-]. destruct (IH r eq_refl) as (Hids & b & x & a & -> & Hx & Hb & ->).
    split; [simpl; now rewrite Hids|].
    exists (d :: b), x, a. repeat split; auto.
Qed.

Lemma set_status_unknown (device_id status : string) (rows : list Row) :
  ~ In device_id (map row_id rows) -> set_status device_id status rows = None.
Proof.
  induction rows as [|d rows IH]; simpl; intros H; [reflexivity|].
  destruct (String.eqb_spec (row_id d) device_id) as [E|E]; [tauto|].
  rewrite IH by tauto. reflexivity.
Qed.

End StatusUpdateFacts.

(** X13: after [applyClientSideFilter] the devices shown are devices of
    the loaded page, all of them when the search term is empty; the total
    is their number and the page links are 1 to the number of pages that
    total needs.  So when the loaded page holds no more devices than the
    page size there is at most one page, and [nextPage] changes nothing
    from any page from 1 on. *)
Theorem devices_filter_then_pages
        (toLowerCase : string -> string) (v : DevicesComponent.View) :
  (0 < DevicesComponent.pageSize (DevicesComponent.paging v))%Z ->
  let v' := DevicesComponent.applyClientSideFilter toLowerCase v in
  let p' := DevicesComponent.paging v' in
  (DevicesComponent.searchTerm v = "" ->
   DevicesComponent.filteredDevices v' = DevicesComponent.devices v)
  /\ (forall d, In d (DevicesComponent.filteredDevices v') ->
                In d (DevicesComponent.devices v))
  /\ DevicesComponent.totalDevices p'
     = Z.of_nat (length (DevicesComponent.filteredDevices v'))
  /\ DevicesComponent.pages p' = Paging.one_to (DevicesComponent.totalPages p')
  /\ ((DevicesComponent.totalPages p' - 1) * DevicesComponent.pageSize p'
      < DevicesComponent.totalDevices p'
      <= DevicesComponent.totalPages p' * DevicesComponent.pageSize p')%Z
  /\ ((Z.of_nat (length (DevicesComponent.devices v))
       <= DevicesComponent.pageSize (DevicesComponent.paging v))%Z ->
      (DevicesComponent.totalPages p' <= 1)%Z
      /\ ((1 <= DevicesComponent.currentPage p')%Z -> DevicesComponent.nextPage p' = p')).
Proof.
  intros Hps v' p'.
  assert (Hf : DevicesComponent.filteredDevices v'
               = if negb (DevicesComponent.searchTerm v =? "")
                 then filter (DevicesComponent.row_matches toLowerCase
                                (toLowerCase (DevicesComponent.searchTerm v)))
                             (DevicesComponent.devices v)
                 else DevicesComponent.devices v) by reflexivity.
  assert (Hlen : length (DevicesComponent.filteredDevices v')
                 <= length (DevicesComponent.devices v)).
  { rewrite Hf. destruct (negb _); [apply filter_length_le|lia]. }
  assert (Hspec := ceil_div_spec
                     (Z.of_nat (length (DevicesComponent.filteredDevices v')))
                     (DevicesComponent.pageSize (DevicesComponent.paging v)) Hps).
  split; [intros Hs; rewrite Hf, Hs; reflexivity|].
  split.
  { intros d. rewrite Hf. destruct (negb _); [|auto].
    intros Hd. now apply filter_In in Hd. }
  split; [reflexivity|]. split; [reflexivity|]. split; [exact Hspec|].
  intros Hpage.
  assert (Hone : (DevicesComponent.totalPages p' <= 1)%Z).
  { change (DevicesComponent.totalPages p')
      with (Paging.ceil_div
              (Z.of_nat (length (DevicesComponent.filteredDevices v')))
              (DevicesComponent.pageSize (DevicesComponent.paging v))).
    nia. }
  split; [exact Hone|]. intros Hcur.
  unfold DevicesComponent.nextPage.
  destruct (Z.ltb_spec (DevicesComponent.currentPage p')
                       (DevicesComponent.totalPages p')); [lia|reflexivity].
Qed.

Lemma devices_filter_then_pages_witness :
  let v := {| DevicesComponent.devices :=
                [{| DevicesComponent.row_id := "dev-001";
                    DevicesComponent.row_name := "Core Router 1";
                    DevicesComponent.row_ip := Some "192.168.1.1";
                    DevicesComponent.row_mac := None;
                    DevicesComponent.row_hostname := None;
                    DevicesComponent.row_status := "UP" |}];
              DevicesComponent.filteredDevices := [];
              DevicesComponent.searchTerm := "";
              DevicesComponent.paging :=
                {| DevicesComponent.currentPage := 1; DevicesComponent.pageSize := 20;
                   DevicesComponent.totalDevices := 0; DevicesComponent.totalPages := 0;
                   DevicesComponent.pages := [] |} |} in
  let p' := DevicesComponent.paging (DevicesComponent.applyClientSideFilter (fun x => x) v) in
  DevicesComponent.nextPage p' = p'.
Proof.
  intros v p'.
  destruct (devices_filter_then_pages (fun x => x) v) as (_ & _ & _ & _ & _ & H).
  - simpl. lia.
  - destruct H as (_ & Hnext); [simpl; lia|].
    apply Hnext. simpl. lia.
Defined.

(** X14: a device status update from the push channel changes at most
    the status of the first loaded device with that id: the ids and the
    order of the loaded devices stay as they are, and an update for an id
    that is not loaded changes nothing at all. *)
Theorem status_update_touches_one_device
        (toLowerCase : string -> string) (device_id status : string)
        (v : DevicesComponent.View) :
  let v' := DevicesComponent.onStatusUpdate toLowerCase device_id status v in
  map DevicesComponent.row_id (DevicesComponent.devices v')
  = map DevicesComponent.row_id (DevicesComponent.devices v)
  /\ (~ In device_id (map DevicesComponent.row_id (DevicesComponent.devices v)) ->
      v' = v)
  /\ (In device_id (map DevicesComponent.row_id (DevicesComponent.devices v)) ->
      exists before d after,
        DevicesComponent.devices v = before ++ d :: after
        /\ DevicesComponent.row_id d = device_id
        /\ Forall (fun x => DevicesComponent.row_id x <> device_id) before
        /\ DevicesComponent.devices v'
           = before
               ++ {| DevicesComponent.row_id := DevicesComponent.row_id d;
                     DevicesComponent.row_name := DevicesComponent.row_name d;
                     DevicesComponent.row_ip := DevicesComponent.row_ip d;
                     DevicesComponent.row_mac := DevicesComponent.row_mac d;
                     DevicesComponent.row_hostname := DevicesComponent.row_hostname d;
                     DevicesComponent.row_status := status |} :: after).
Proof.
  intros v'. subst v'. unfold DevicesComponent.onStatusUpdate.
  destruct (DevicesComponent.set_status device_id status (DevicesComponent.devices v))
    as [rows|] eqn:E.
  - destruct (set_status_ids device_id status _ _ E) as (Hids & Hsplit).
    simpl. split; [exact Hids|]. split.
    + intros Hn. rewrite (set_status_unknown device_id status _ Hn) in E. discriminate.
    + intros _. exact Hsplit.
  - split; [reflexivity|]. split; [reflexivity|].
    intros Hin. exfalso.
    apply in_map_iff in Hin as (d & Hd & Hin).
    clear - E Hd Hin. induction (DevicesComponent.devices v) as [|x l IH]; [contradiction|].
    simpl in E. destruct (String.eqb_spec (DevicesComponent.row_id x) device_id) as [Ex|Ex];
      [discriminate|].
    destruct Hin as [->|Hin]; [contradiction|].
    destruct (DevicesComponent.set_status device_id status l); [discriminate|].
    now apply IH.
Qed.

(** ** Adding discovered devices to monitoring *)

Section DiscoveryFacts.
Import Discovery.






Variable JSON_stringify : Js.JsValue -> string.





End DiscoveryFacts.




(** ** The health class of the dashboard *)

Section HealthFacts.
Import DashboardComponent.

Lemma Qle_bool_true (a b : Q) : Qle_bool a b = true -> (a <= b)%Q.
Proof. apply Qle_bool_iff. Qed.

Lemma Qle_bool_false (a b : Q) : Qle_bool a b = false -> (b < a)%Q.
Proof.
  intros H. apply Qnot_le_lt. intros Hle. apply Qle_bool_iff in Hle. congruence.
Qed.

End HealthFacts.

(** X16: the health class of the dashboard is monotone in the score: a
    higher overall score never gives a worse class (critical, poor, fair,
    good, excellent, in that order), the class is 'excellent' exactly
    from 90 on and 'critical' exactly below 40. *)
Theorem healthStatusClass_monotone (s1 s2 : Q) :
  (s1 <= s2)%Q ->
  DashboardComponent.health_rank (DashboardComponent.healthStatusClass (Some s1))
  <= DashboardComponent.health_rank (DashboardComponent.healthStatusClass (Some s2))
  /\ (DashboardComponent.healthStatusClass (Some s1) = "excellent" <-> (90 <= s1)%Q)
  /\ (DashboardComponent.healthStatusClass (Some s1) = "critical" <-> (s1 < 40)%Q).
Proof.
  intros Hle. unfold DashboardComponent.healthStatusClass.
  destruct (Qle_bool 90 s1) eqn:A1; destruct (Qle_bool 75 s1) eqn:B1;
    destruct (Qle_bool 60 s1) eqn:C1; destruct (Qle_bool 40 s1) eqn:D1;
    destruct (Qle_bool 90 s2) eqn:A2; destruct (Qle_bool 75 s2) eqn:B2;
    destruct (Qle_bool 60 s2) eqn:C2; destruct (Qle_bool 40 s2) eqn:D2;
    repeat match goal with
           | H : Qle_bool _ _ = true |- _ => apply Qle_bool_true in H
           | H : Qle_bool _ _ = false |- _ => apply Qle_bool_false in H
           end;
    try (exfalso; lra);
    (split; [vm_compute; lia|]);
    (split; (split; [intros E; (discriminate E || lra)|intros E; (reflexivity || (exfalso; lra))])).
Qed.

Lemma healthStatusClass_monotone_witness :
  DashboardComponent.health_rank (DashboardComponent.healthStatusClass (Some 59.5%Q))
  <= DashboardComponent.health_rank (DashboardComponent.healthStatusClass (Some 76%Q)).
Proof.
  apply (healthStatusClass_monotone 59.5%Q 76%Q). lra.
Defined.

(** ** Ports of a device *)

Section PortFacts.
Import DeviceDetailComponent.

Lemma filter_split_perm {A} (f : A -> bool) (l : list A) :
  Permutation (filter f l ++ filter (fun x => negb (f x)) l) l.
Proof.
  induction l as [|x l IH]; simpl; [constructor|].
  destruct (f x); simpl.
  - now constructor.
  - now apply Permutation_sym, Permutation_cons_app, Permutation_sym.
Qed.

End PortFacts.

(** X17: on the device page every port is either active or inactive and
    never both: the two lists together are a rearrangement of the ports,
    their lengths add up, a port with status UP is active and any other
    port is inactive. *)
Theorem ports_split (ports : list DeviceDetailComponent.Port) :
  Permutation (DeviceDetailComponent.activePorts ports
                 ++ DeviceDetailComponent.inactivePorts ports) ports
  /\ length (DeviceDetailComponent.activePorts ports)
     + length (DeviceDetailComponent.inactivePorts ports) = length ports
  /\ (forall p, In p (DeviceDetailComponent.activePorts ports)
                <-> In p ports /\ DeviceDetailComponent.port_status p = "UP")
  /\ (forall p, In p (DeviceDetailComponent.inactivePorts ports)
                <-> In p ports /\ DeviceDetailComponent.port_status p <> "UP").
Proof.
  pose proof (filter_split_perm
                (fun p => DeviceDetailComponent.port_status p =? "UP") ports) as Hp.
  split; [exact Hp|]. split.
  - apply Permutation_length in Hp. now rewrite length_app in Hp.
  - split; intros p.
    + unfold DeviceDetailComponent.activePorts. rewrite filter_In.
      now rewrite String.eqb_eq.
    + unfold DeviceDetailComponent.inactivePorts. rewrite filter_In.
      rewrite negb_true_iff, String.eqb_neq. reflexivity.
Qed.

(** ** Creating a link *)

(** X18: [createLink] posts a link only when both device ids are given
    and differ: every link it has posted has two different, non-empty
    endpoints, and each refused call leaves the posted links alone and
    raises exactly one warning. *)
Theorem createLink_never_posts_self_link
        (newLink : LinksComponent.LinkCreate)
        (posted : list LinksComponent.LinkCreate)
        (svc : NotificationService.Notifier) :
  let valid l := LinksComponent.source_device_id l <> ""
                 /\ LinksComponent.target_device_id l <> ""
                 /\ LinksComponent.source_device_id l
                    <> LinksComponent.target_device_id l in
  let result := LinksComponent.createLink newLink posted svc in
  (valid newLink -> result = (posted ++ [newLink], svc))
  /\ (~ valid newLink ->
      fst result = posted
      /\ exists w,
           NotificationService.emitted (snd result)
           = NotificationService.emitted svc ++ [w]
           /\ NotificationService.type w = NotificationService.warning_t)
  /\ (Forall valid posted -> Forall valid (fst result)).
Proof.
  intros valid result. subst result. unfold LinksComponent.createLink.
  destruct (String.eqb_spec (LinksComponent.source_device_id newLink) "") as [Es|Es];
    destruct (String.eqb_spec (LinksComponent.target_device_id newLink) "") as [Et|Et];
    simpl;
    try (split; [intros (A & B & C); contradiction|];
         split; [intros _; split; [reflexivity|eexists; split; reflexivity]|];
         intros H; exact H).
  destruct (String.eqb_spec (LinksComponent.source_device_id newLink)
                            (LinksComponent.target_device_id newLink)) as [E|E]; simpl.
  - split; [intros (A & B & C); contradiction|].
    split; [intros _; split; [reflexivity|eexists; split; reflexivity]|].
    intros H; exact H.
  - split; [reflexivity|]. split.
    + intros H. exfalso. apply H. repeat split; assumption.
    + intros H. apply Forall_app. split; [exact H|].
      constructor; [repeat split; assumption|constructor].
Qed.

Lemma createLink_never_posts_self_link_witness :
  fst (LinksComponent.createLink
         {| LinksComponent.source_device_id := "dev-001";
            LinksComponent.target_device_id := "dev-001" |}
         [] NotificationService.fresh) = []
  /\ LinksComponent.createLink
       {| LinksComponent.source_device_id := "dev-001";
          LinksComponent.target_device_id := "dev-002" |}
       [] NotificationService.fresh
     = ([{| LinksComponent.source_device_id := "dev-001";
            LinksComponent.target_device_id := "dev-002" |}],
        NotificationService.fresh).
Proof.
  destruct (createLink_never_posts_self_link
              {| LinksComponent.source_device_id := "dev-001";
                 LinksComponent.target_device_id := "dev-001" |}
              [] NotificationService.fresh) as (_ & Hbad & _).
  destruct (createLink_never_posts_self_link
              {| LinksComponent.source_device_id := "dev-001";
                 LinksComponent.target_device_id := "dev-002" |}
              [] NotificationService.fresh) as (Hgood & _).
  split.
  - apply Hbad. intros (_ & _ & H). now apply H.
  - apply Hgood. repeat split; discriminate.
Defined.

(** ** Exporting the discovered devices *)

Section CsvFacts.
Import Discovery.

Local Open Scope string_scope.

Lemma append_assoc_string (a b c : string) : (a ++ b) ++ c = a ++ (b ++ c).
Proof. induction a as [|x a IH]; simpl; [reflexivity|now rewrite IH]. Qed.

Lemma append_empty_r (a : string) : a ++ "" = a.
Proof. induction a as [|x a IH]; simpl; [reflexivity|now rewrite IH]. Qed.

Lemma has_char_append (c : ascii) (a b : string) :
  has_char c (a ++ b) = has_char c a || has_char c b.
Proof.
  induction a as [|x a IH]; simpl; [reflexivity|].
  now rewrite IH, orb_assoc.
Qed.

(** A stretch without the separator is read as one piece. *)
Lemma split_on_piece (c : ascii) (p acc : string) :
  has_char c p = false -> split_on c acc p = [acc ++ p].
Proof.
  revert acc. induction p as [|x p IH]; intros acc H; simpl.
  - now rewrite append_empty_r.
  - simpl in H. apply orb_false_elim in H as [Hx Hp]. rewrite Hx.
    rewrite IH by exact Hp. now rewrite append_assoc_string.
Qed.

Lemma split_on_sep (c : ascii) (p acc rest : string) :
  has_char c p = false ->
  split_on c acc (p ++ String c rest) = (acc ++ p) :: split_on c "" rest.
Proof.
  revert acc. induction p as [|x p IH]; intros acc H; simpl.
  - now rewrite Ascii.eqb_refl, append_empty_r.
  - simpl in H. apply orb_false_elim in H as [Hx Hp]. rewrite Hx.
    rewrite IH by exact Hp. now rewrite append_assoc_string.
Qed.

(** Cutting a joined text at the separator gives the pieces back. *)
Lemma split_on_concat_with (c : ascii) (p : string) (ps : list string) :
  Forall (fun x => has_char c x = false) (p :: ps) ->
  split_on c "" (Js.concat_with (String c "") (p :: ps)) = p :: ps.
Proof.
  revert p. induction ps as [|q ps IH]; intros p H.
  - simpl. inversion H; subst. now rewrite split_on_piece.
  - inversion H as [|? ? Hp Hrest]; subst.
    change (Js.concat_with (String c "") (p :: q :: ps))
      with (p ++ String c (Js.concat_with (String c "") (q :: ps))).
    rewrite split_on_sep by exact Hp. simpl append. f_equal.
    now apply IH.
Qed.

Lemma has_char_concat_with (c : ascii) (sep : string) (ps : list string) :
  has_char c sep = false ->
  Forall (fun x => has_char c x = false) ps ->
  has_char c (Js.concat_with sep ps) = false.
Proof.
  intros Hsep. induction 1 as [|p ps Hp Hps IH]; [reflexivity|].
  destruct ps as [|q ps]; [exact Hp|].
  change (Js.concat_with sep (p :: q :: ps))
    with (p ++ sep ++ Js.concat_with sep (q :: ps)).
  now rewrite !has_char_append, Hp, Hsep, IH.
Qed.

Lemma plain_spec (f : string) :
  plain f = true <-> has_char "," f = false /\ has_char "010" f = false.
Proof.
  unfold plain. rewrite andb_true_iff, !negb_true_iff. reflexivity.
Qed.

End CsvFacts.

(** X19: the export of the discovery page reads back as what was
    exported whenever no field holds a comma or a line break: cutting the
    text at line breaks and each line at commas gives the header and then
    one row of six fields per device, in order.  (Fields are written as
    they are, without quoting.) *)
Theorem devicesToCSV_reads_back
        (number_toString : Q -> string) (devices : list Discovery.ScanResult) :
  (forall d field,
      In d devices -> In field (Discovery.csv_row number_toString d) ->
      Discovery.plain field = true) ->
  Discovery.read_csv (Discovery.devicesToCSV number_toString devices)
  = Discovery.headers :: map (Discovery.csv_row number_toString) devices.
Proof.
  intros Hplain. unfold Discovery.read_csv, Discovery.devicesToCSV.
  set (rows := Discovery.headers :: map (Discovery.csv_row number_toString) devices).
  assert (Hrows : Forall (Forall (fun f => Discovery.plain f = true)) rows).
  { constructor.
    - repeat constructor.
    - apply Forall_forall. intros r Hr. apply in_map_iff in Hr as (d & <- & Hd).
      apply Forall_forall. intros f Hf. now apply (Hplain d). }
  assert (Hne : Forall (fun r => r <> []) rows).
  { constructor; [discriminate|].
    apply Forall_forall. intros r Hr. apply in_map_iff in Hr as (d & <- & _).
    discriminate. }
  assert (Hlines : Forall (fun l => Discovery.has_char "010" l = false)
                          (map (Js.concat_with ",") rows)).
  { apply Forall_forall. intros l Hl. apply in_map_iff in Hl as (r & <- & Hr).
    apply has_char_concat_with; [reflexivity|].
    rewrite Forall_forall in Hrows. specialize (Hrows r Hr).
    eapply Forall_impl; [|exact Hrows]. intros f Hf. now apply plain_spec in Hf. }
  change Discovery.newline with (String "010"%char "").
  change (map (Js.concat_with ",") rows)
    with (Js.concat_with "," Discovery.headers
            :: map (Js.concat_with ",")
                   (map (Discovery.csv_row number_toString) devices)) in *.
  rewrite split_on_concat_with by exact Hlines.
  change (Js.concat_with "," Discovery.headers
            :: map (Js.concat_with ",")
                   (map (Discovery.csv_row number_toString) devices))
    with (map (Js.concat_with ",") rows).
  rewrite map_map.
  rewrite <- (map_id rows) at 2. apply map_ext_in. intros r Hr.
  rewrite Forall_forall in Hrows, Hne.
  specialize (Hrows r Hr). specialize (Hne r Hr).
  destruct r as [|f fs]; [contradiction|].
  change "," with (String ","%char "").
  apply split_on_concat_with.
  eapply Forall_impl; [|exact Hrows]. intros x Hx. now apply plain_spec in Hx.
Qed.

Lemma devicesToCSV_reads_back_witness :
  let d := {| Discovery.ip := "192.168.1.10"; Discovery.mac := None;
              Discovery.hostname := Some "printer-1";
              Discovery.manufacturer := None; Discovery.is_alive := true;
              Discovery.response_time_ms := None |} in
  Discovery.read_csv (Discovery.devicesToCSV (fun _ => "") [d])
  = [Discovery.headers; ["192.168.1.10"; ""; "printer-1"; ""; "Alive"; ""]].
Proof.
  intros d.
  apply (devicesToCSV_reads_back (fun _ => "") [d]).
  intros x f [<-|[]] Hf. simpl in Hf.
  repeat destruct Hf as [<-|Hf]; try reflexivity. contradiction.
Defined.

(** A host name with a comma in it is read back as two fields. *)
Example devicesToCSV_comma_in_field :
  map (@length string)
      (Discovery.read_csv
         (Discovery.devicesToCSV (fun _ => "")
            [{| Discovery.ip := "192.168.1.10"; Discovery.mac := None;
                Discovery.hostname := Some "lab,room 2";
                Discovery.manufacturer := None; Discovery.is_alive := false;
                Discovery.response_time_ms := None |}]))
  = [6; 7].
Proof. reflexivity. Qed.

(** Two discovered devices with the same address: both requests carry
    the first of them. *)
Example selectAll_repeated_address :
  let d name := {| Discovery.ip := "192.168.1.10"; Discovery.mac := None;
                   Discovery.hostname := Some name; Discovery.manufacturer := None;
                   Discovery.is_alive := true; Discovery.response_time_ms := None |} in
  let p := {| Discovery.selection := {| DiscoveryComponent.selectedDevices := [] |};
              Discovery.discoveredDevices := [d "printer-1"; d "printer-2"] |} in
  map Discovery.dc_name
      (fst (fst (Discovery.addSelectedToMonitoring (fun _ => "{}") []
                   (Discovery.selectAll p) NotificationService.fresh)))
  = ["printer-1"; "printer-1"].
Proof. reflexivity. Qed.


